(** * opencode-mem: the OpenCode plugin and its platform adapter

    A shallow embedding of [src/opencode-plugin/src/index.ts] (the plugin
    entry point [ClaudeMemPlugin] with its four hooks and three query tools)
    and of the OpenCode platform adapter ([opencodeAdapter.normalizeInput]).

    JavaScript values are a small inductive type, JavaScript strings are
    sequences of UTF-16 code units, and the asynchronous handlers are programs
    of a free monad whose operations are the effects the source performs:
    [fetch], [console.error], a [throw], and reads and writes of the two
    closure variables [sessionInitialized] and [sessionDbId].  The remote
    worker is an arbitrary oracle that answers each request from the history
    of everything that happened before it. *)

From Stdlib Require Import ZArith NArith List String Ascii Bool Lia.
From Stdlib Require Import DecimalString DecimalPos.
Import ListNotations.

Set Implicit Arguments.
Set Warnings "-register-all".
Local Open Scope Z_scope.
Local Open Scope list_scope.

(* ------------------------------------------------------------------ *)
(** ** JavaScript strings *)

(** A JavaScript string is a sequence of UTF-16 code units. *)
Definition jstring : Type := list N.

(** An ASCII string literal of the source, as code units. *)
Definition lit (s : string) : jstring :=
  map N_of_ascii (list_ascii_of_string s).

Fixpoint jstring_eqb (a b : jstring) : bool :=
  match a, b with
  | [], [] => true
  | x :: a', y :: b' => (N.eqb x y && jstring_eqb a' b')%bool
  | _, _ => false
  end.

(** ECMAScript [WhiteSpace] and [LineTerminator] code units: what
    [String.prototype.trim] strips. *)
Definition is_js_whitespace (c : N) : bool :=
  (N.eqb c 9 || N.eqb c 10 || N.eqb c 11 || N.eqb c 12 || N.eqb c 13
   || N.eqb c 32 || N.eqb c 160 || N.eqb c 5760
   || (N.leb 8192 c && N.leb c 8202)
   || N.eqb c 8232 || N.eqb c 8233 || N.eqb c 8239 || N.eqb c 8287
   || N.eqb c 12288 || N.eqb c 65279)%bool.

Fixpoint trim_start (s : jstring) : jstring :=
  match s with
  | c :: rest => if is_js_whitespace c then trim_start rest else s
  | [] => []
  end.

(** [s.trim()] *)
Definition js_trim (s : jstring) : jstring :=
  rev (trim_start (rev (trim_start s))).

(** Truthiness of a string: the empty string is the only falsy one. *)
Definition string_truthy (s : jstring) : bool :=
  match s with [] => false | _ :: _ => true end.

(** Decimal rendering of an integer, as [String(n)] gives it. *)
Definition decimal (z : Z) : jstring :=
  lit (NilZero.string_of_int (Z.to_int z)).

(** A string is well-formed UTF-16 when every surrogate is half of a pair;
    [encodeURIComponent] throws a [URIError] on any other string. *)
Definition is_high_surrogate (c : N) : bool := (N.leb 55296 c && N.leb c 56319)%bool.
Definition is_low_surrogate (c : N) : bool := (N.leb 56320 c && N.leb c 57343)%bool.

Fixpoint well_formed_utf16 (s : jstring) : bool :=
  match s with
  | [] => true
  | c :: rest =>
      if is_high_surrogate c then
        match rest with
        | d :: rest' => (is_low_surrogate d && well_formed_utf16 rest')%bool
        | [] => false
        end
      else if is_low_surrogate c then false
      else well_formed_utf16 rest
  end.

(* ------------------------------------------------------------------ *)
(** ** JavaScript values *)

(** The values the host and the worker exchange with the plugin: JSON data
    and [undefined].  Numbers are modelled as integers (identifiers, limits,
    HTTP status codes).  An object is the list of its own enumerable
    properties in enumeration order. *)
Inductive JsValue : Type :=
| JUndefined
| JNull
| JBool (b : bool)
| JNum (n : Z)
| JStr (s : jstring)
| JArr (elems : list JsValue)
| JObj (props : list (jstring * JsValue)).

(** What a [throw] carries: an [Error] instance (with its name and message)
    or any other value. *)
Inductive Thrown : Type :=
| ErrorObj (name message : jstring)
| ThrownValue (v : JsValue).

(** The completion of an evaluation that may throw, or of a promise that may
    reject. *)
Inductive Outcome (A : Type) : Type :=
| Returned (a : A)
| Threw (e : Thrown).
Arguments Threw {A} e.

Definition TypeError (msg : string) : Thrown := ErrorObj (lit "TypeError") (lit msg).
Definition URIError (msg : string) : Thrown := ErrorObj (lit "URIError") (lit msg).

Definition is_nullish (v : JsValue) : bool :=
  match v with JUndefined | JNull => true | _ => false end.

(** [a ?? b] *)
Definition nullish (a b : JsValue) : JsValue :=
  if is_nullish a then b else a.

(** [v === null] *)
Definition is_null (v : JsValue) : bool :=
  match v with JNull => true | _ => false end.

(** [typeof v === 'object'] *)
Definition typeof_object (v : JsValue) : bool :=
  match v with JNull | JArr _ | JObj _ => true | _ => false end.

Fixpoint assoc (key : jstring) (props : list (jstring * JsValue)) : option JsValue :=
  match props with
  | [] => None
  | (k, v) :: rest => if jstring_eqb k key then Some v else assoc key rest
  end.

(** [v.key] for the property names this code reads (none of them is an array
    index or a built-in property of strings, numbers or arrays): a
    [TypeError] on [undefined] and [null], the property of an object, and
    [undefined] everywhere else. *)
Definition js_get (v : JsValue) (key : string) : Outcome JsValue :=
  match v with
  | JUndefined | JNull => Threw (TypeError "Cannot read properties of undefined or null")
  | JObj props =>
      match assoc (lit key) props with
      | Some x => Returned x
      | None => Returned JUndefined
      end
  | _ => Returned JUndefined
  end.

(** [v?.key] *)
Definition js_get_opt (v : JsValue) (key : string) : JsValue :=
  match js_get v key with
  | Returned x => x
  | Threw _ => JUndefined
  end.

(** [obj.key = x] on the property list of an object: an existing property
    keeps its place, a new one is added last. *)
Fixpoint set_prop (key : jstring) (x : JsValue) (props : list (jstring * JsValue))
  : list (jstring * JsValue) :=
  match props with
  | [] => [(key, x)]
  | (k, v) :: rest =>
      if jstring_eqb k key then (k, x) :: rest else (k, v) :: set_prop key x rest
  end.

(** [a.join(sep)] on already rendered elements. *)
Fixpoint join (sep : jstring) (parts : list jstring) : jstring :=
  match parts with
  | [] => []
  | [p] => p
  | p :: rest => p ++ sep ++ join sep rest
  end.

(** Whether converting [v] to a string throws.  Data holds no function, so
    an own [toString] property of an object is never callable: the inherited
    [valueOf] returns the object itself, no primitive is reached, and both
    [String(v)] and [v + 'text'] end in a [TypeError].  An array converts
    each of its elements, [undefined] and [null] apart. *)
Fixpoint String_throws (v : JsValue) : bool :=
  match v with
  | JObj props =>
      match assoc (lit "toString") props with
      | Some _ => true
      | None => false
      end
  | JArr elems => existsb String_throws elems
  | _ => false
  end.

(** Whether every number on which the text of [v] depends is an integer below
    2^53 in absolute value: there a JavaScript number is exact and prints in
    plain decimal.  (Larger magnitudes round, and print in exponent form from
    1e21: they are outside the model.) *)
Fixpoint safe_numbers (v : JsValue) : bool :=
  match v with
  | JNum n => Z.abs n <? 2 ^ 53
  | JArr elems => forallb safe_numbers elems
  | _ => true
  end.

(** The text [String(v)] gives when it does not throw ([String_throws]):
    arrays join their elements with a comma, rendering [undefined] and
    [null] elements as the empty string; plain objects give
    ["[object Object]"]; a number prints in decimal ([safe_numbers]). *)
Fixpoint js_String (v : JsValue) : jstring :=
  match v with
  | JUndefined => lit "undefined"
  | JNull => lit "null"
  | JBool true => lit "true"
  | JBool false => lit "false"
  | JNum n => decimal n
  | JStr s => s
  | JArr elems =>
      join (lit ",")
        (map (fun e => if is_nullish e then [] else js_String e) elems)
  | JObj _ => lit "[object Object]"
  end.

(** [String(v)], and the conversion [encodeURIComponent] and [+] apply to an
    operand. *)
Definition ToString (v : JsValue) : Outcome jstring :=
  if String_throws v
  then Threw (TypeError "Cannot convert object to primitive value")
  else Returned (js_String v).

(** [a + b] where [b] is a string: the left operand is converted to a string
    and the two are concatenated. *)
Definition js_add_string (a : JsValue) (b : jstring) : Outcome jstring :=
  match ToString a with
  | Returned s => Returned (s ++ b)
  | Threw e => Threw e
  end.

(** [v === 'literal'] *)
Definition strict_eq_string (v : JsValue) (s : string) : bool :=
  match v with
  | JStr x => jstring_eqb x (lit s)
  | _ => false
  end.

Fixpoint indexed {A : Type} (i : nat) (l : list A) : list (jstring * A) :=
  match l with
  | [] => []
  | x :: rest => (decimal (Z.of_nat i), x) :: indexed (S i) rest
  end.

(** [Object.entries(v)]: a [TypeError] on [undefined] and [null]; the
    properties of an object; the indexed elements of an array or of a
    string; nothing for a number or a boolean. *)
Definition Object_entries (v : JsValue) : Outcome (list (jstring * JsValue)) :=
  match v with
  | JUndefined | JNull => Threw (TypeError "Cannot convert undefined or null to object")
  | JObj props => Returned props
  | JArr elems => Returned (indexed 0 elems)
  | JStr s => Returned (indexed 0 (map (fun c => JStr [c]) s))
  | JBool _ | JNum _ => Returned []
  end.

(** Conversion to a [USVString], applied by [URLSearchParams] to names and
    values: a lone surrogate becomes U+FFFD. *)
Fixpoint to_USVString (s : jstring) : jstring :=
  match s with
  | [] => []
  | c :: rest =>
      if is_high_surrogate c then
        match rest with
        | d :: rest' =>
            if is_low_surrogate d then c :: d :: to_USVString rest'
            else 65533%N :: to_USVString rest
        | [] => [65533%N]
        end
      else if is_low_surrogate c then 65533%N :: to_USVString rest
      else c :: to_USVString rest
  end.

(** [searchParams.set(key, value)]: the first pair named [key] takes the
    value and the other pairs of that name go; without one the pair is
    appended. *)
Fixpoint usp_set (key value : jstring) (q : list (jstring * jstring))
  : list (jstring * jstring) :=
  match q with
  | [] => [(key, value)]
  | (k, v) :: rest =>
      if jstring_eqb k key
      then (k, value) :: filter (fun kv => negb (jstring_eqb (fst kv) key)) rest
      else (k, v) :: usp_set key value rest
  end.

(** [encodeURIComponent(v)]: converts to a string and throws a [URIError] on
    a lone surrogate.  The percent-encoding itself is wire format: requests
    keep query parameters decoded. *)
Definition encodeURIComponent (v : JsValue) : Outcome jstring :=
  match ToString v with
  | Threw e => Threw e
  | Returned s =>
      if well_formed_utf16 s then Returned s
      else Threw (URIError "URI malformed")
  end.

(** Truthiness of a value: [undefined], [null], [false], [0] and [''] are
    falsy, everything else (every object and array included) is truthy. *)
Definition js_truthy (v : JsValue) : bool :=
  match v with
  | JUndefined | JNull => false
  | JBool b => b
  | JNum n => negb (n =? 0)
  | JStr s => string_truthy s
  | JArr _ | JObj _ => true
  end.

(** The result of [parseInt]: [NaN] or an integer. *)
Inductive ParsedNumber : Type :=
| NaN
| Finite (n : Z).

Definition is_digit (c : N) : bool := (N.leb 48 c && N.leb c 57)%bool.

(** The value of the longest prefix of decimal digits, continuing from
    [acc]. *)
Fixpoint parse_digits (s : jstring) (acc : Z) : Z :=
  match s with
  | c :: rest =>
      if is_digit c then parse_digits rest (10 * acc + Z.of_N (c - 48)) else acc
  | [] => acc
  end.

Definition starts_with_digit (s : jstring) : bool :=
  match s with
  | c :: _ => is_digit c
  | [] => false
  end.

(** [parseInt(s, 10)]: leading white space is skipped, one sign is read,
    then the longest prefix of decimal digits; without a digit there the
    result is [NaN].  The value is the mathematical one: a JavaScript number
    is that value as a double, the same below 2^53. *)
Definition parseInt10 (s : jstring) : ParsedNumber :=
  match trim_start s with
  | [] => NaN
  | c :: rest =>
      if N.eqb c 45 then
        if starts_with_digit rest then Finite (- parse_digits rest 0) else NaN
      else if N.eqb c 43 then
        if starts_with_digit rest then Finite (parse_digits rest 0) else NaN
      else
        if is_digit c then Finite (parse_digits (c :: rest) 0) else NaN
  end.

(** A parsed number inside a template literal. *)
Definition number_text (n : ParsedNumber) : jstring :=
  match n with
  | NaN => lit "NaN"
  | Finite z => decimal z
  end.

(* ------------------------------------------------------------------ *)
(** ** HTTP requests and responses *)

Inductive Method : Type := GET | POST.

(** The argument of a [fetch].  The URL is kept in parts (the path after
    [WORKER_BASE_URL] and the decoded query parameters) and the body is the
    value handed to [JSON.stringify]; the byte-level encodings belong to the
    transport. *)
Record Request : Type := mkRequest {
  req_method : Method;
  req_base : jstring;
  req_path : jstring;
  req_query : list (jstring * jstring);
  req_headers : list (jstring * jstring);
  req_body : option JsValue;
  req_timeout_ms : option Z
}.

(** What the plugin reads of a response: its status, and the completions of
    [response.text()] and [response.json()]. *)
Record Response : Type := mkResponse {
  resp_status : Z;
  resp_text : Outcome jstring;
  resp_json : Outcome JsValue
}.

(** [response.ok] *)
Definition ok (r : Response) : bool :=
  ((200 <=? resp_status r) && (resp_status r <=? 299))%bool.

(* ------------------------------------------------------------------ *)
(** ** Session state, effects and their interpretation *)

(** The closure variables of one plugin instance. *)
Record PluginState : Type := mkState {
  sessionInitialized : bool;
  sessionDbId : JsValue
}.

(** [let sessionInitialized = false; let sessionDbId = null;] *)
Definition initial_state : PluginState :=
  {| sessionInitialized := false; sessionDbId := JNull |}.

(** Programs over the effects of the source. *)
Inductive Prog (A : Type) : Type :=
| Ret (a : A)
| Throw (e : Thrown)
| Fetch (r : Request) (k : Outcome Response -> Prog A)
| ConsoleError (msg : jstring) (e : Thrown) (k : Prog A)
| ReadInit (k : bool -> Prog A)
| WriteInit (b : bool) (k : Prog A)
| ReadDbId (k : JsValue -> Prog A)
| WriteDbId (v : JsValue) (k : Prog A).
Arguments Throw {A} e.

Fixpoint bind {A B : Type} (p : Prog A) (f : A -> Prog B) : Prog B :=
  match p with
  | Ret a => f a
  | Throw e => Throw e
  | Fetch r k => Fetch r (fun x => bind (k x) f)
  | ConsoleError m e k => ConsoleError m e (bind k f)
  | ReadInit k => ReadInit (fun b => bind (k b) f)
  | WriteInit b k => WriteInit b (bind k f)
  | ReadDbId k => ReadDbId (fun v => bind (k v) f)
  | WriteDbId v k => WriteDbId v (bind k f)
  end.

(** [try { p } catch (error) { h error }] *)
Fixpoint try_catch {A : Type} (p : Prog A) (h : Thrown -> Prog A) : Prog A :=
  match p with
  | Ret a => Ret a
  | Throw e => h e
  | Fetch r k => Fetch r (fun x => try_catch (k x) h)
  | ConsoleError m e k => ConsoleError m e (try_catch k h)
  | ReadInit k => ReadInit (fun b => try_catch (k b) h)
  | WriteInit b k => WriteInit b (try_catch k h)
  | ReadDbId k => ReadDbId (fun v => try_catch (k v) h)
  | WriteDbId v k => WriteDbId v (try_catch k h)
  end.

Declare Scope prog_scope.
Delimit Scope prog_scope with prog.
Notation "x <- p ;; q" := (bind p (fun x => q))
  (at level 61, p at next level, right associativity) : prog_scope.
Notation "p ;; q" := (bind p (fun _ => q))
  (at level 61, right associativity) : prog_scope.
Local Open Scope prog_scope.

(** An evaluation that may throw, performed inside a program. *)
Definition eval {A : Type} (x : Outcome A) : Prog A :=
  match x with
  | Returned a => Ret a
  | Threw e => Throw e
  end.

(** [await fetch(r)] *)
Definition await_fetch (r : Request) : Prog Response := Fetch r eval.

(** [console.error(msg, error)] *)
Definition console_error (msg : string) (e : Thrown) : Prog unit :=
  ConsoleError (lit msg) e (Ret tt).

Definition read_sessionInitialized : Prog bool := ReadInit (fun b => Ret b).
Definition write_sessionInitialized (b : bool) : Prog unit := WriteInit b (Ret tt).
Definition write_sessionDbId (v : JsValue) : Prog unit := WriteDbId v (Ret tt).

(** What can be observed from outside the plugin, in order of occurrence. *)
Inductive Event : Type :=
| EvFetch (r : Request)
| EvLog (msg : jstring) (e : Thrown).

(** The worker and the network: the completion of a [fetch], decided from
    everything observed so far and the request. *)
Definition Oracle : Type := list Event -> Request -> Outcome Response.

(** The result of running a program: its completion, the closure variables
    and the trace afterwards. *)
Record Result (A : Type) : Type := mkResult {
  completion : Outcome A;
  state : PluginState;
  trace : list Event
}.

Fixpoint run {A : Type} (o : Oracle) (p : Prog A) (st : PluginState) (tr : list Event)
  : Result A :=
  match p with
  | Ret a => mkResult (Returned a) st tr
  | Throw e => mkResult (Threw e) st tr
  | Fetch r k => run o (k (o tr r)) st (tr ++ [EvFetch r])
  | ConsoleError m e k => run o k st (tr ++ [EvLog m e])
  | ReadInit k => run o (k (sessionInitialized st)) st tr
  | WriteInit b k =>
      run o k {| sessionInitialized := b; sessionDbId := sessionDbId st |} tr
  | ReadDbId k => run o (k (sessionDbId st)) st tr
  | WriteDbId v k =>
      run o k {| sessionInitialized := sessionInitialized st; sessionDbId := v |} tr
  end.

(* ------------------------------------------------------------------ *)
(** ** Worker service configuration *)

Module Environment.

(** The two variables of [process.env] the plugin reads; [None] is an unset
    variable. *)
Record Env : Type := mkEnv {
  CLAUDE_MEM_PORT : option jstring;
  CLAUDE_MEM_HOST : option jstring
}.

(** [process.env.CLAUDE_MEM_PORT ? parseInt(process.env.CLAUDE_MEM_PORT, 10) : 37777] *)
Definition WORKER_PORT (env : Env) : ParsedNumber :=
  match CLAUDE_MEM_PORT env with
  | Some s => if string_truthy s then parseInt10 s else Finite 37777
  | None => Finite 37777
  end.

(** [process.env.CLAUDE_MEM_HOST ?? '127.0.0.1'] *)
Definition WORKER_HOST (env : Env) : jstring :=
  match CLAUDE_MEM_HOST env with
  | Some s => s
  | None => lit "127.0.0.1"
  end.

(** [`http://${WORKER_HOST}:${WORKER_PORT}`] *)
Definition WORKER_BASE_URL (env : Env) : jstring :=
  lit "http://" ++ WORKER_HOST env ++ lit ":" ++ number_text (WORKER_PORT env).

End Environment.

(* ------------------------------------------------------------------ *)
(** ** The plugin: [ClaudeMemPlugin] *)

(** What is fixed when a plugin instance is constructed: [WORKER_BASE_URL]
    (computed once from the environment), the [project] and [directory]
    arguments of the plugin, and the [sessionId] it generates from the clock
    and a random suffix. *)
Record Config : Type := mkConfig {
  WORKER_BASE_URL : jstring;
  project : JsValue;
  directory : JsValue;
  sessionId : jstring
}.

Section Plugin.

Variable cfg : Config.

Definition json_headers : list (jstring * jstring) :=
  [(lit "Content-Type", lit "application/json")].

(** [fetch(`${WORKER_BASE_URL}/api/readiness`, { signal: AbortSignal.timeout(5000) })] *)
Definition readiness_request : Request :=
  {| req_method := GET; req_base := WORKER_BASE_URL cfg;
     req_path := lit "/api/readiness"; req_query := [];
     req_headers := []; req_body := None; req_timeout_ms := Some 5000 |}.

Definition post_json (path : string) (body : JsValue) : Request :=
  {| req_method := POST; req_base := WORKER_BASE_URL cfg;
     req_path := lit path; req_query := [];
     req_headers := json_headers; req_body := Some body;
     req_timeout_ms := None |}.

Definition get_query (path : string) (query : list (jstring * jstring)) : Request :=
  {| req_method := GET; req_base := WORKER_BASE_URL cfg;
     req_path := lit path; req_query := query;
     req_headers := []; req_body := None; req_timeout_ms := None |}.

(** [ensureWorker] *)
Definition ensureWorker : Prog bool :=
  try_catch
    (response <- await_fetch readiness_request ;;
     Ret (ok response))
    (fun _ => Ret false).

(** The request of ['chat.message'].  The prompt is [input.content ?? '']
    when [input] is an object other than [null] (the read cannot throw
    there) and [''] otherwise. *)
Definition init_request (input : JsValue) : Request :=
  post_json "/api/sessions/init"
    (JObj [ (lit "contentSessionId", JStr (sessionId cfg));
            (lit "project", nullish (js_get_opt (project cfg) "name") (JStr (lit "unknown")));
            (lit "prompt",
              if (typeof_object input && negb (is_null input))%bool
              then nullish (js_get_opt input "content") (JStr [])
              else JStr []) ]).

(** ['chat.message'] *)
Definition chat_message (input _output : JsValue) : Prog unit :=
  alive <- ensureWorker ;;
  if negb alive then Ret tt else
  initialized <- read_sessionInitialized ;;
  if initialized then Ret tt else
  try_catch
    (response <- await_fetch (init_request input) ;;
     if ok response then
       result <- eval (resp_json response) ;;
       dbid <- eval (js_get result "sessionDbId") ;;
       write_sessionDbId (nullish dbid JNull) ;;
       write_sessionInitialized true
     else Ret tt)
    (fun error => console_error "claude-mem: session init failed" error).

Definition observation_body (tool toolOutput : JsValue) : JsValue :=
  JObj [ (lit "contentSessionId", JStr (sessionId cfg));
         (lit "tool_name", nullish (js_get_opt tool "name") (JStr (lit "unknown")));
         (lit "tool_input", js_get_opt tool "input");
         (lit "tool_response", toolOutput);
         (lit "cwd", directory cfg) ].

(** ['tool.execute.after'] *)
Definition tool_execute_after (input toolOutput : JsValue) : Prog unit :=
  alive <- ensureWorker ;;
  if negb alive then Ret tt else
  initialized <- read_sessionInitialized ;;
  if negb initialized then Ret tt else
  try_catch
    (tool <- eval (js_get input "tool") ;;
     _ <- await_fetch
            (post_json "/api/sessions/observations" (observation_body tool toolOutput)) ;;
     Ret tt)
    (fun error => console_error "claude-mem: observation capture failed" error).

(** ['\n\n'] *)
Definition blank_line : jstring := [10%N; 10%N].

(** [(outputObj.system ?? '') + '\n\n' + context]: the first [+] throws
    when the content of [system] cannot be converted to a string. *)
Definition system_text (output : list (jstring * JsValue)) (context : jstring)
  : Outcome jstring :=
  match js_add_string (nullish (js_get_opt (JObj output) "system") (JStr []))
          blank_line with
  | Returned s => Returned (s ++ context)
  | Threw e => Threw e
  end.

(** The host's [output] object of the system-transform hook is mutated in
    place; the hook is modelled as returning the properties of that object
    as they are when it finishes.  [inject_context] is the object after the
    assignment [outputObj.system = ...]: nothing is assigned when the
    right-hand side throws. *)
Definition inject_context (output : list (jstring * JsValue)) (context : jstring)
  : list (jstring * JsValue) :=
  match system_text output context with
  | Returned text => set_prop (lit "system") (JStr text) output
  | Threw _ => output
  end.

(** ['experimental.chat.system.transform'] *)
Definition experimental_chat_system_transform
  (_input : JsValue) (output : list (jstring * JsValue))
  : Prog (list (jstring * JsValue)) :=
  alive <- ensureWorker ;;
  if negb alive then Ret output else
  try_catch
    (let projectName := nullish (js_get_opt (project cfg) "name") (JStr (lit "unknown")) in
     encoded <- eval (encodeURIComponent projectName) ;;
     response <- await_fetch
                   (get_query "/api/context/inject" [(lit "projects", encoded)]) ;;
     if ok response then
       context <- eval (resp_text response) ;;
       if string_truthy (js_trim context)
       then
         text <- eval (system_text output context) ;;
         Ret (set_prop (lit "system") (JStr text) output)
       else Ret output
     else Ret output)
    (fun error =>
       console_error "claude-mem: context injection failed" error ;;
       Ret output).

(** [messages.filter((m) => m.role === 'assistant')]: the callback reads
    [m.role], which throws on an [undefined] or [null] element. *)
Fixpoint filter_assistant (messages : list JsValue) : Outcome (list JsValue) :=
  match messages with
  | [] => Returned []
  | m :: rest =>
      match js_get m "role" with
      | Threw e => Threw e
      | Returned role =>
          match filter_assistant rest with
          | Threw e => Threw e
          | Returned kept =>
              Returned (if strict_eq_string role "assistant" then m :: kept else kept)
          end
      end
  end.

(** [a.pop()]: the last element, [undefined] on an empty array. *)
Definition pop (a : list JsValue) : JsValue := last a JUndefined.

(** [(inputObj.messages ?? []).filter(...).pop()?.content ?? ''] *)
Definition lastAssistantMessage (input : JsValue) : Outcome JsValue :=
  match js_get input "messages" with
  | Threw e => Threw e
  | Returned found =>
      match nullish found (JArr []) with
      | JArr messages =>
          match filter_assistant messages with
          | Threw e => Threw e
          | Returned kept => Returned (nullish (js_get_opt (pop kept) "content") (JStr []))
          end
      | _ => Threw (TypeError "messages.filter is not a function")
      end
  end.

Definition summarize_body (last_message : JsValue) : JsValue :=
  JObj [ (lit "contentSessionId", JStr (sessionId cfg));
         (lit "last_assistant_message", last_message) ].

(** ['experimental.session.compacting'] *)
Definition experimental_session_compacting (input _output : JsValue) : Prog unit :=
  alive <- ensureWorker ;;
  if negb alive then Ret tt else
  initialized <- read_sessionInitialized ;;
  if negb initialized then Ret tt else
  try_catch
    (last_message <- eval (lastAssistantMessage input) ;;
     _ <- await_fetch (post_json "/api/sessions/summarize" (summarize_body last_message)) ;;
     Ret tt)
    (fun error => console_error "claude-mem: summarization failed" error).

(** The loop that fills [searchParams] from [Object.entries(params)]:
    [undefined] and [null] values are skipped, every other value is set as
    [String(value)]; the loop ends at the first value whose conversion
    throws. *)
Fixpoint collect_params (entries : list (jstring * JsValue))
  (searchParams : list (jstring * jstring)) : Outcome (list (jstring * jstring)) :=
  match entries with
  | [] => Returned searchParams
  | (key, value) :: rest =>
      if negb (is_nullish value) then
        match ToString value with
        | Returned text =>
            collect_params rest
              (usp_set (to_USVString key) (to_USVString text) searchParams)
        | Threw e => Threw e
        end
      else collect_params rest searchParams
  end.

(** [{ error: msg }] *)
Definition error_object (msg : jstring) : JsValue :=
  JObj [(lit "error", JStr msg)].

(** [error instanceof Error ? error.message : String(error)].  What is
    caught here is an [Error]: the exceptions of this code, and the
    rejections of [fetch] and of the body readers. *)
Definition error_text (e : Thrown) : jstring :=
  match e with
  | ErrorObj _ message => message
  | ThrownValue v => js_String v
  end.

(** [tool['mem-search'].execute] *)
Definition mem_search_execute (params : JsValue) : Prog JsValue :=
  alive <- ensureWorker ;;
  if negb alive then Ret (error_object (lit "Worker service unavailable")) else
  try_catch
    (entries <- eval (Object_entries params) ;;
     searchParams <- eval (collect_params entries []) ;;
     response <- await_fetch (get_query "/api/search" searchParams) ;;
     if negb (ok response)
     then Ret (error_object (lit "Search failed: " ++ decimal (resp_status response)))
     else eval (resp_json response))
    (fun error => Ret (error_object (lit "Search error: " ++ error_text error))).

(** [tool['mem-timeline'].execute] *)
Definition mem_timeline_execute (params : JsValue) : Prog JsValue :=
  alive <- ensureWorker ;;
  if negb alive then Ret (error_object (lit "Worker service unavailable")) else
  try_catch
    (entries <- eval (Object_entries params) ;;
     searchParams <- eval (collect_params entries []) ;;
     response <- await_fetch (get_query "/api/timeline" searchParams) ;;
     if negb (ok response)
     then Ret (error_object (lit "Timeline failed: " ++ decimal (resp_status response)))
     else eval (resp_json response))
    (fun error => Ret (error_object (lit "Timeline error: " ++ error_text error))).

(** [tool['mem-get-observations'].execute] *)
Definition mem_get_observations_execute (params : JsValue) : Prog JsValue :=
  alive <- ensureWorker ;;
  if negb alive then Ret (error_object (lit "Worker service unavailable")) else
  try_catch
    (response <- await_fetch (post_json "/api/observations/batch" params) ;;
     if negb (ok response)
     then Ret (error_object (lit "Fetch failed: " ++ decimal (resp_status response)))
     else eval (resp_json response))
    (fun error => Ret (error_object (lit "Fetch error: " ++ error_text error))).

(* ------------------------------------------------------------------ *)
(** ** The host driving one plugin instance *)

Inductive ToolName : Type := MemSearch | MemTimeline | MemGetObservations.

Definition tool_execute (t : ToolName) (params : JsValue) : Prog JsValue :=
  match t with
  | MemSearch => mem_search_execute params
  | MemTimeline => mem_timeline_execute params
  | MemGetObservations => mem_get_observations_execute params
  end.

(** One call of the host into the plugin. *)
Inductive HostCall : Type :=
| ChatMessage (input output : JsValue)
| ToolExecuteAfter (input toolOutput : JsValue)
| SystemTransform (input : JsValue) (output : list (jstring * JsValue))
| SessionCompacting (input output : JsValue)
| ToolCall (t : ToolName) (params : JsValue).

(** What the host gets back from a call that resolves: nothing from a hook
    (the system-transform hook leaves its [output] object as given here), the
    returned value from a tool. *)
Inductive HostSeen : Type :=
| HookDone
| SystemOutput (output : list (jstring * JsValue))
| ToolResult (v : JsValue).

Definition handle (c : HostCall) : Prog HostSeen :=
  match c with
  | ChatMessage input output => chat_message input output ;; Ret HookDone
  | ToolExecuteAfter input toolOutput => tool_execute_after input toolOutput ;; Ret HookDone
  | SystemTransform input output =>
      output' <- experimental_chat_system_transform input output ;;
      Ret (SystemOutput output')
  | SessionCompacting input output =>
      experimental_session_compacting input output ;; Ret HookDone
  | ToolCall t params => v <- tool_execute t params ;; Ret (ToolResult v)
  end.

(** A plugin instance in its environment: what the host has seen of each
    call so far, the closure variables and the trace. *)
Record World : Type := mkWorld {
  seen : list (Outcome HostSeen);
  vars : PluginState;
  events : list Event
}.

Definition fresh : World :=
  {| seen := []; vars := initial_state; events := [] |}.

(** The host awaits each call before it makes the next one. *)
Definition step (o : Oracle) (w : World) (c : HostCall) : World :=
  let r := run o (handle c) (vars w) (events w) in
  {| seen := seen w ++ [completion r]; vars := state r; events := trace r |}.

Definition run_calls (o : Oracle) (calls : list HostCall) (w : World) : World :=
  fold_left (step o) calls w.

End Plugin.

(* ------------------------------------------------------------------ *)
(** ** The platform adapter: [opencodeAdapter] *)

Module OpencodeAdapter.

Record NormalizedHookInput : Type := mkNormalized {
  sessionId : JsValue;
  cwd : JsValue;
  platform : jstring;
  prompt : JsValue;
  toolName : JsValue;
  toolInput : JsValue;
  toolResponse : JsValue;
  transcriptPath : JsValue
}.

(** Sequencing of evaluations that may throw. *)
Definition and_then {A B : Type} (x : Outcome A) (f : A -> Outcome B) : Outcome B :=
  match x with
  | Returned a => f a
  | Threw e => Threw e
  end.

(** [normalizeInput(raw)]; [process_cwd] is what [process.cwd()] returns.
    The properties are read in the order of the object literal. *)
Definition normalizeInput (process_cwd : jstring) (raw : JsValue)
  : Outcome NormalizedHookInput :=
  and_then (js_get raw "sessionId") (fun r_sessionId =>
  and_then (js_get raw "cwd") (fun r_cwd =>
  and_then (js_get raw "directory") (fun r_directory =>
  and_then (js_get raw "prompt") (fun r_prompt =>
  and_then (js_get raw "toolName") (fun r_toolName =>
  and_then (js_get raw "toolInput") (fun r_toolInput =>
  and_then (js_get raw "toolOutput") (fun r_toolOutput =>
  and_then (js_get raw "toolResponse") (fun r_toolResponse =>
  Returned
    {| sessionId := nullish r_sessionId (JStr (lit "unknown"));
       cwd := nullish r_cwd (nullish r_directory (JStr process_cwd));
       platform := lit "opencode";
       prompt := r_prompt;
       toolName := r_toolName;
       toolInput := r_toolInput;
       toolResponse := nullish r_toolOutput r_toolResponse;
       transcriptPath := JUndefined |})))))))).

(** [formatOutput(result)]: the context string of a context-injection
    result, a success indicator for every other result. *)
Definition formatOutput (result : JsValue) : Outcome JsValue :=
  and_then (js_get result "hookSpecificOutput") (fun hookSpecificOutput =>
  if js_truthy (js_get_opt hookSpecificOutput "additionalContext") then
    and_then (js_get result "hookSpecificOutput") (fun again =>
    js_get again "additionalContext")
  else
    and_then (js_get result "continue") (fun r_continue =>
    Returned (JObj [(lit "success", nullish r_continue (JBool true))]))).

End OpencodeAdapter.

(* ------------------------------------------------------------------ *)
(** ** Reading traces *)

Definition is_fetch (ev : Event) : bool :=
  match ev with EvFetch _ => true | EvLog _ _ => false end.

Definition is_post (r : Request) : bool :=
  match req_method r with POST => true | GET => false end.

(** A POST to [sessions/init]. *)
Definition is_init_post (ev : Event) : bool :=
  match ev with
  | EvFetch r => (is_post r && jstring_eqb (req_path r) (lit "/api/sessions/init"))%bool
  | EvLog _ _ => false
  end.

Definition count_fetches (tr : list Event) : nat := List.length (filter is_fetch tr).
Definition count_init_posts (tr : list Event) : nat := List.length (filter is_init_post tr).

(** The three endpoints that take the session's identity. *)
Definition is_session_path (path : jstring) : bool :=
  (jstring_eqb path (lit "/api/sessions/init")
   || jstring_eqb path (lit "/api/sessions/observations")
   || jstring_eqb path (lit "/api/sessions/summarize"))%bool.

(** A request to one of the session endpoints names the session by the
    locally generated id. *)
Definition carries_sessionId (cfg : Config) (ev : Event) : Prop :=
  match ev with
  | EvFetch r =>
      is_session_path (req_path r) = true ->
      exists body, req_body r = Some body
                   /\ js_get body "contentSessionId" = Returned (JStr (sessionId cfg))
  | EvLog _ _ => True
  end.

(** What the liveness check finds at a given point of the trace, and the
    trace once it has been made. *)
Definition alive (cfg : Config) (o : Oracle) (tr : list Event) : bool :=
  match o tr (readiness_request cfg) with
  | Returned response => ok response
  | Threw _ => false
  end.

Definition probed (cfg : Config) (tr : list Event) : list Event :=
  tr ++ [EvFetch (readiness_request cfg)].

(** The completion of the one [fetch] a hook or tool makes after a liveness
    check that passed. *)
Definition answer (cfg : Config) (o : Oracle) (tr : list Event) (r : Request)
  : Outcome Response :=
  o (probed cfg tr) r.

(** What the host sees of a call that stops at the liveness check. *)
Definition unavailable (c : HostCall) : HostSeen :=
  match c with
  | SystemTransform _ output => SystemOutput output
  | ToolCall _ _ => ToolResult (error_object (lit "Worker service unavailable"))
  | _ => HookDone
  end.

(** The request a query tool sends for given parameters, when building it
    does not throw. *)
Definition tool_request (cfg : Config) (t : ToolName) (params : JsValue)
  : Outcome Request :=
  match t with
  | MemSearch =>
      match Object_entries params with
      | Returned entries =>
          match collect_params entries [] with
          | Returned searchParams => Returned (get_query cfg "/api/search" searchParams)
          | Threw e => Threw e
          end
      | Threw e => Threw e
      end
  | MemTimeline =>
      match Object_entries params with
      | Returned entries =>
          match collect_params entries [] with
          | Returned searchParams => Returned (get_query cfg "/api/timeline" searchParams)
          | Threw e => Threw e
          end
      | Threw e => Threw e
      end
  | MemGetObservations => Returned (post_json cfg "/api/observations/batch" params)
  end.

(** The pair a parameter contributes to the query of a search or timeline
    request, and the parameters that contribute one. *)
Definition query_pair (entry : jstring * JsValue) : jstring * jstring :=
  (to_USVString (fst entry), to_USVString (js_String (snd entry))).

Definition has_value (entry : jstring * JsValue) : bool :=
  negb (is_nullish (snd entry)).

(** A parameter that has a value which [String(value)] cannot convert. *)
Definition unconvertible (entry : jstring * JsValue) : bool :=
  (has_value entry && String_throws (snd entry))%bool.

(** The two message prefixes of each tool's error objects. *)
Definition failed_prefix (t : ToolName) : jstring :=
  match t with
  | MemSearch => lit "Search failed: "
  | MemTimeline => lit "Timeline failed: "
  | MemGetObservations => lit "Fetch failed: "
  end.

Definition error_prefix (t : ToolName) : jstring :=
  match t with
  | MemSearch => lit "Search error: "
  | MemTimeline => lit "Timeline error: "
  | MemGetObservations => lit "Fetch error: "
  end.

(** A message whose [role] is ['assistant']. *)
Definition is_assistant (m : JsValue) : bool :=
  strict_eq_string (js_get_opt m "role") "assistant".

(** A string made of white space only (the empty string included). *)
Definition whitespace_only (s : jstring) : bool := forallb is_js_whitespace s.

Definition chat_calls (inputs : list (JsValue * JsValue)) : list HostCall :=
  map (fun io => ChatMessage (fst io) (snd io)) inputs.

Definition tool_calls (calls : list (ToolName * JsValue)) : list HostCall :=
  map (fun tp => ToolCall (fst tp) (snd tp)) calls.

(** Programs that never read [sessionDbId], and programs that never assign a
    closure variable. *)
Inductive no_dbid_read {A : Type} : Prog A -> Prop :=
| ndr_ret a : no_dbid_read (Ret a)
| ndr_throw e : no_dbid_read (Throw e)
| ndr_fetch r k : (forall x, no_dbid_read (k x)) -> no_dbid_read (Fetch r k)
| ndr_log m e k : no_dbid_read k -> no_dbid_read (ConsoleError m e k)
| ndr_read_init k : (forall b, no_dbid_read (k b)) -> no_dbid_read (ReadInit k)
| ndr_write_init b k : no_dbid_read k -> no_dbid_read (WriteInit b k)
| ndr_write_dbid v k : no_dbid_read k -> no_dbid_read (WriteDbId v k).

Inductive no_write {A : Type} : Prog A -> Prop :=
| nw_ret a : no_write (Ret a)
| nw_throw e : no_write (Throw e)
| nw_fetch r k : (forall x, no_write (k x)) -> no_write (Fetch r k)
| nw_log m e k : no_write k -> no_write (ConsoleError m e k)
| nw_read_init k : (forall b, no_write (k b)) -> no_write (ReadInit k)
| nw_read_dbid k : (forall v, no_write (k v)) -> no_write (ReadDbId k).

(* ------------------------------------------------------------------ *)
(** ** Concrete scenarios *)

Definition demo_cfg : Config :=
  {| WORKER_BASE_URL := lit "http://127.0.0.1:37777";
     project := JObj [(lit "name", JStr (lit "demo"))];
     directory := JStr (lit "/work/demo");
     sessionId := lit "opencode-1700000000000-k3j9x2a1b" |}.

Definition reply (status : Z) (text : string) (json : JsValue) : Outcome Response :=
  Returned {| resp_status := status;
              resp_text := Returned (lit text);
              resp_json := Returned json |}.

Definition is_readiness (r : Request) : bool :=
  jstring_eqb (req_path r) (lit "/api/readiness").

(** A worker that is up and answers every request with 200. *)
Definition worker_up : Oracle :=
  fun _ r =>
    if is_readiness r then reply 200 "" JNull
    else reply 200 "## Recent work" (JObj [(lit "sessionDbId", JNum 7)]).

(** No worker: every [fetch] rejects. *)
Definition worker_down : Oracle :=
  fun _ _ => Threw (ErrorObj (lit "TypeError") (lit "fetch failed")).

(** A worker that passes the readiness check and fails everything else with
    a 500. *)
Definition worker_failing : Oracle :=
  fun _ r =>
    if is_readiness r then reply 200 "" JNull
    else reply 500 "" JNull.

Definition hello : JsValue := JObj [(lit "content", JStr (lit "hello"))].

Definition msg (role content : string) : JsValue :=
  JObj [(lit "role", JStr (lit role)); (lit "content", JStr (lit content))].

(** [[user, assistant:"A", user, assistant:"B"]] *)
Definition conversation : list JsValue :=
  [msg "user" "q1"; msg "assistant" "A"; msg "user" "q2"; msg "assistant" "B"].

Definition initialized_state : PluginState :=
  {| sessionInitialized := true; sessionDbId := JNum 7 |}.

(** The same plugin instance as [fresh], had [sessionDbId] held something
    else. *)
Definition fresh_with_other_id : World :=
  {| seen := [];
     vars := {| sessionInitialized := false; sessionDbId := JNum 99 |};
     events := [] |}.

(** A host [output] object whose [system] content is a string. *)
Definition system_output : list (jstring * JsValue) :=
  [(lit "system", JStr (lit "You are a coding agent."))].

(** A day of calls: a prompt, a tool execution, a compaction and a search. *)
Definition busy_day : list HostCall :=
  [ ChatMessage hello JUndefined;
    ToolExecuteAfter (JObj [(lit "tool", JObj [(lit "name", JStr (lit "bash"))])])
      (JStr (lit "ok"));
    SessionCompacting (JObj [(lit "messages", JArr conversation)]) JUndefined;
    ToolCall MemSearch (JObj [(lit "query", JStr (lit "auth")); (lit "limit", JNum 5)]) ].

(** A tool-execution event of the [bash] tool. *)
Definition bash_event : JsValue :=
  JObj [(lit "tool", JObj [(lit "name", JStr (lit "bash"))])].

(** Parameters of a search, two of them without a value. *)
Definition search_params : list (jstring * JsValue) :=
  [ (lit "query", JStr (lit "auth"));
    (lit "project", JNull);
    (lit "limit", JNum 5);
    (lit "type", JUndefined) ].

(* ------------------------------------------------------------------ *)
(** * Properties *)

(** ** Running programs *)

Lemma run_bind (A B : Type) (o : Oracle) (p : Prog A) (f : A -> Prog B) :
  forall st tr,
    run o (bind p f) st tr =
    match completion (run o p st tr) with
    | Returned a => run o (f a) (state (run o p st tr)) (trace (run o p st tr))
    | Threw e => mkResult (Threw e) (state (run o p st tr)) (trace (run o p st tr))
    end.
Proof.
  induction p as [a|e|r k IH|m e k IH|k IH|b k IH|k IH|v k IH]; intros st tr;
    simpl; auto.
Qed.

Lemma run_try_catch (A : Type) (o : Oracle) (p : Prog A) (h : Thrown -> Prog A) :
  forall st tr,
    run o (try_catch p h) st tr =
    match completion (run o p st tr) with
    | Returned a => run o p st tr
    | Threw e => run o (h e) (state (run o p st tr)) (trace (run o p st tr))
    end.
Proof.
  induction p as [a|e|r k IH|m e k IH|k IH|b k IH|k IH|v k IH]; intros st tr;
    simpl; auto.
Qed.

(** A program only ever extends the trace. *)
Lemma run_extends (A : Type) (o : Oracle) (p : Prog A) :
  forall st tr, exists more, trace (run o p st tr) = tr ++ more.
Proof.
  induction p as [a|e|r k IH|m e k IH|k IH|b k IH|k IH|v k IH]; intros st tr; simpl.
  - exists []. now rewrite app_nil_r.
  - exists []. now rewrite app_nil_r.
  - destruct (IH (o tr r) st (tr ++ [EvFetch r])) as [more E].
    exists (EvFetch r :: more). rewrite E, <- app_assoc. reflexivity.
  - destruct (IH st (tr ++ [EvLog m e])) as [more E].
    exists (EvLog m e :: more). rewrite E, <- app_assoc. reflexivity.
  - apply IH.
  - apply IH.
  - apply IH.
  - apply IH.
Qed.

(** A program without assignments leaves the closure variables alone. *)
Lemma no_write_state (A : Type) (o : Oracle) (p : Prog A) :
  no_write p -> forall st tr, state (run o p st tr) = st.
Proof.
  induction 1; intros st tr; simpl; auto.
Qed.

Lemma no_write_bind (A B : Type) (p : Prog A) (f : A -> Prog B) :
  no_write p -> (forall a, no_write (f a)) -> no_write (bind p f).
Proof.
  induction 1; intros Hf; simpl; try constructor; auto.
Qed.

Lemma no_write_try_catch (A : Type) (p : Prog A) (h : Thrown -> Prog A) :
  no_write p -> (forall e, no_write (h e)) -> no_write (try_catch p h).
Proof.
  induction 1; intros Hh; simpl; try constructor; auto.
Qed.

Lemma no_write_eval (A : Type) (x : Outcome A) : no_write (eval x).
Proof. destruct x; constructor. Qed.

Lemma no_write_await_fetch (r : Request) : no_write (await_fetch r).
Proof. constructor. intros x. apply no_write_eval. Qed.

(** A program that never reads [sessionDbId] behaves the same whatever that
    variable holds. *)
Lemma no_dbid_read_run (A : Type) (o : Oracle) (p : Prog A) :
  no_dbid_read p ->
  forall st1 st2 tr,
    sessionInitialized st1 = sessionInitialized st2 ->
    completion (run o p st1 tr) = completion (run o p st2 tr)
    /\ trace (run o p st1 tr) = trace (run o p st2 tr)
    /\ sessionInitialized (state (run o p st1 tr))
       = sessionInitialized (state (run o p st2 tr)).
Proof.
  induction 1 as [a|e|r k Hk IH|m e k Hk IH|k Hk IH|b k Hk IH|v k Hk IH];
    intros st1 st2 tr E; simpl; auto.
  rewrite E. apply IH. exact E.
Qed.

Lemma no_dbid_read_bind (A B : Type) (p : Prog A) (f : A -> Prog B) :
  no_dbid_read p -> (forall a, no_dbid_read (f a)) -> no_dbid_read (bind p f).
Proof.
  induction 1; intros Hf; simpl; try constructor; auto.
Qed.

Lemma no_dbid_read_try_catch (A : Type) (p : Prog A) (h : Thrown -> Prog A) :
  no_dbid_read p -> (forall e, no_dbid_read (h e)) -> no_dbid_read (try_catch p h).
Proof.
  induction 1; intros Hh; simpl; try constructor; auto.
Qed.

Lemma no_dbid_read_eval (A : Type) (x : Outcome A) : no_dbid_read (eval x).
Proof. destruct x; constructor. Qed.

Lemma no_dbid_read_await_fetch (r : Request) : no_dbid_read (await_fetch r).
Proof. constructor. intros x. apply no_dbid_read_eval. Qed.

(* ------------------------------------------------------------------ *)
(** ** The liveness check, the hooks and the tools, step by step *)

Section Steps.

Variable cfg : Config.
Variable o : Oracle.

Lemma run_ensureWorker (st : PluginState) (tr : list Event) :
  run o (ensureWorker cfg) st tr
  = mkResult (Returned (alive cfg o tr)) st (probed cfg tr).
Proof.
  unfold ensureWorker, alive, probed. simpl.
  destruct (o tr (readiness_request cfg)) as [response|e]; reflexivity.
Qed.

Lemma run_chat_message (input output : JsValue) (st : PluginState) (tr : list Event) :
  run o (chat_message cfg input output) st tr =
  if negb (alive cfg o tr) then mkResult (Returned tt) st (probed cfg tr)
  else if sessionInitialized st then mkResult (Returned tt) st (probed cfg tr)
  else
    let sent := probed cfg tr ++ [EvFetch (init_request cfg input)] in
    let failed e :=
      mkResult (Returned tt) st
        (sent ++ [EvLog (lit "claude-mem: session init failed") e]) in
    match answer cfg o tr (init_request cfg input) with
    | Threw e => failed e
    | Returned response =>
        if ok response then
          match resp_json response with
          | Threw e => failed e
          | Returned result =>
              match js_get result "sessionDbId" with
              | Threw e => failed e
              | Returned dbid =>
                  mkResult (Returned tt)
                    {| sessionInitialized := true; sessionDbId := nullish dbid JNull |}
                    sent
              end
          end
        else mkResult (Returned tt) st sent
    end.
Proof.
  unfold chat_message, answer. rewrite run_bind, run_ensureWorker. simpl.
  destruct (alive cfg o tr); simpl; [|reflexivity].
  destruct (sessionInitialized st) eqn:Hinit; simpl; [reflexivity|].
  destruct (o (probed cfg tr) (init_request cfg input)) as [response|e]; simpl;
    [|reflexivity].
  destruct (ok response); simpl; [|reflexivity].
  destruct (resp_json response) as [result|e]; simpl; [|reflexivity].
  destruct (js_get result "sessionDbId") as [dbid|e]; simpl; reflexivity.
Qed.

Lemma run_tool_execute_after (input toolOutput : JsValue) (st : PluginState)
  (tr : list Event) :
  run o (tool_execute_after cfg input toolOutput) st tr =
  if negb (alive cfg o tr) then mkResult (Returned tt) st (probed cfg tr)
  else if negb (sessionInitialized st) then mkResult (Returned tt) st (probed cfg tr)
  else
    let oops := EvLog (lit "claude-mem: observation capture failed") in
    match js_get input "tool" with
    | Threw e => mkResult (Returned tt) st (probed cfg tr ++ [oops e])
    | Returned tool =>
        let req := post_json cfg "/api/sessions/observations"
                     (observation_body cfg tool toolOutput) in
        match answer cfg o tr req with
        | Threw e => mkResult (Returned tt) st ((probed cfg tr ++ [EvFetch req]) ++ [oops e])
        | Returned _ => mkResult (Returned tt) st (probed cfg tr ++ [EvFetch req])
        end
    end.
Proof.
  unfold tool_execute_after, answer. rewrite run_bind, run_ensureWorker. simpl.
  destruct (alive cfg o tr); simpl; [|reflexivity].
  destruct (sessionInitialized st) eqn:Hinit; simpl; [|reflexivity].
  destruct (js_get input "tool") as [tool|e]; simpl; [|reflexivity].
  destruct (o (probed cfg tr) _) as [response|e]; simpl; reflexivity.
Qed.

Lemma run_session_compacting (input output : JsValue) (st : PluginState)
  (tr : list Event) :
  run o (experimental_session_compacting cfg input output) st tr =
  if negb (alive cfg o tr) then mkResult (Returned tt) st (probed cfg tr)
  else if negb (sessionInitialized st) then mkResult (Returned tt) st (probed cfg tr)
  else
    let oops := EvLog (lit "claude-mem: summarization failed") in
    match lastAssistantMessage input with
    | Threw e => mkResult (Returned tt) st (probed cfg tr ++ [oops e])
    | Returned last_message =>
        let req := post_json cfg "/api/sessions/summarize"
                     (summarize_body cfg last_message) in
        match answer cfg o tr req with
        | Threw e => mkResult (Returned tt) st ((probed cfg tr ++ [EvFetch req]) ++ [oops e])
        | Returned _ => mkResult (Returned tt) st (probed cfg tr ++ [EvFetch req])
        end
    end.
Proof.
  unfold experimental_session_compacting, answer.
  rewrite run_bind, run_ensureWorker. simpl.
  destruct (alive cfg o tr); simpl; [|reflexivity].
  destruct (sessionInitialized st) eqn:Hinit; simpl; [|reflexivity].
  destruct (lastAssistantMessage input) as [last_message|e]; simpl; [|reflexivity].
  destruct (o (probed cfg tr) _) as [response|e]; simpl; reflexivity.
Qed.

Lemma run_system_transform (input : JsValue) (output : list (jstring * JsValue))
  (st : PluginState) (tr : list Event) :
  run o (experimental_chat_system_transform cfg input output) st tr =
  if negb (alive cfg o tr) then mkResult (Returned output) st (probed cfg tr)
  else
    let oops := EvLog (lit "claude-mem: context injection failed") in
    match encodeURIComponent
            (nullish (js_get_opt (project cfg) "name") (JStr (lit "unknown"))) with
    | Threw e => mkResult (Returned output) st (probed cfg tr ++ [oops e])
    | Returned encoded =>
        let req := get_query cfg "/api/context/inject" [(lit "projects", encoded)] in
        let sent := probed cfg tr ++ [EvFetch req] in
        match answer cfg o tr req with
        | Threw e => mkResult (Returned output) st (sent ++ [oops e])
        | Returned response =>
            if ok response then
              match resp_text response with
              | Threw e => mkResult (Returned output) st (sent ++ [oops e])
              | Returned context =>
                  if string_truthy (js_trim context) then
                    match system_text output context with
                    | Returned text =>
                        mkResult
                          (Returned (set_prop (lit "system") (JStr text) output))
                          st sent
                    | Threw e => mkResult (Returned output) st (sent ++ [oops e])
                    end
                  else mkResult (Returned output) st sent
              end
            else mkResult (Returned output) st sent
        end
    end.
Proof.
  unfold experimental_chat_system_transform, answer.
  rewrite run_bind, run_ensureWorker. simpl.
  destruct (alive cfg o tr); simpl; [|reflexivity].
  destruct (encodeURIComponent _) as [encoded|e]; simpl; [|reflexivity].
  destruct (o (probed cfg tr) _) as [response|e]; simpl; [|reflexivity].
  destruct (ok response); simpl; [|reflexivity].
  destruct (resp_text response) as [context|e]; simpl; [|reflexivity].
  destruct (string_truthy (js_trim context)); simpl; [|reflexivity].
  destruct (system_text output context) as [text|e]; reflexivity.
Qed.

Lemma run_tool_execute (t : ToolName) (params : JsValue) (st : PluginState)
  (tr : list Event) :
  run o (tool_execute cfg t params) st tr =
  if negb (alive cfg o tr)
  then mkResult (Returned (error_object (lit "Worker service unavailable"))) st
         (probed cfg tr)
  else
    let caught e := Returned (error_object (error_prefix t ++ error_text e)) in
    match tool_request cfg t params with
    | Threw e => mkResult (caught e) st (probed cfg tr)
    | Returned req =>
        let sent := probed cfg tr ++ [EvFetch req] in
        match answer cfg o tr req with
        | Threw e => mkResult (caught e) st sent
        | Returned response =>
            if negb (ok response)
            then mkResult
                   (Returned (error_object
                                (failed_prefix t ++ decimal (resp_status response))))
                   st sent
            else
              match resp_json response with
              | Threw e => mkResult (caught e) st sent
              | Returned decoded => mkResult (Returned decoded) st sent
              end
        end
    end.
Proof.
  destruct t; cbn [tool_execute tool_request];
    [unfold mem_search_execute | unfold mem_timeline_execute
     | unfold mem_get_observations_execute];
    unfold answer; rewrite run_bind, run_ensureWorker; simpl;
    (destruct (alive cfg o tr); simpl; [|reflexivity]);
    try (destruct (Object_entries params) as [entries|e]; simpl; [|reflexivity];
         destruct (collect_params entries []) as [searchParams|e]; simpl;
         [|reflexivity]);
    (destruct (o (probed cfg tr) _) as [response|e]; simpl; [|reflexivity]);
    (destruct (ok response); simpl; [|reflexivity]);
    destruct (resp_json response) as [decoded|e]; reflexivity.
Qed.

(** The host's view of a call adds nothing to what the handler does. *)
Lemma run_handle (c : HostCall) (st : PluginState) (tr : list Event) :
  state (run o (handle cfg c) st tr)
  = match c with
    | ChatMessage input output => state (run o (chat_message cfg input output) st tr)
    | ToolExecuteAfter input toolOutput =>
        state (run o (tool_execute_after cfg input toolOutput) st tr)
    | SystemTransform input output =>
        state (run o (experimental_chat_system_transform cfg input output) st tr)
    | SessionCompacting input output =>
        state (run o (experimental_session_compacting cfg input output) st tr)
    | ToolCall t params => state (run o (tool_execute cfg t params) st tr)
    end
  /\ trace (run o (handle cfg c) st tr)
     = match c with
       | ChatMessage input output => trace (run o (chat_message cfg input output) st tr)
       | ToolExecuteAfter input toolOutput =>
           trace (run o (tool_execute_after cfg input toolOutput) st tr)
       | SystemTransform input output =>
           trace (run o (experimental_chat_system_transform cfg input output) st tr)
       | SessionCompacting input output =>
           trace (run o (experimental_session_compacting cfg input output) st tr)
       | ToolCall t params => trace (run o (tool_execute cfg t params) st tr)
       end.
Proof.
  destruct c; cbn [handle]; rewrite run_bind;
    match goal with
    | |- context [completion ?r] => destruct (completion r)
    end; split; reflexivity.
Qed.

End Steps.

(* ------------------------------------------------------------------ *)
(** ** Strings, properties and messages *)

Lemma jstring_eqb_eq (a b : jstring) : jstring_eqb a b = true <-> a = b.
Proof.
  revert b. induction a as [|x a IH]; intros [|y b]; simpl; split; intros H;
    try reflexivity; try discriminate.
  - apply andb_true_iff in H. destruct H as [Hx Ha].
    apply N.eqb_eq in Hx. apply IH in Ha. congruence.
  - inversion H; subst. apply andb_true_iff. split; [apply N.eqb_refl|now apply IH].
Qed.

Lemma jstring_eqb_refl (a : jstring) : jstring_eqb a a = true.
Proof. now apply jstring_eqb_eq. Qed.

Lemma jstring_eqb_neq (a b : jstring) : a <> b -> jstring_eqb a b = false.
Proof.
  intros H. destruct (jstring_eqb a b) eqn:E; [|reflexivity].
  apply jstring_eqb_eq in E. contradiction.
Qed.

Lemma trim_start_nil (s : jstring) :
  trim_start s = [] <-> whitespace_only s = true.
Proof.
  unfold whitespace_only. induction s as [|c s IH]; simpl; [tauto|].
  destruct (is_js_whitespace c); simpl; [exact IH|].
  split; discriminate.
Qed.

Lemma trim_start_head (s : jstring) (c : N) (rest : jstring) :
  trim_start s = c :: rest -> is_js_whitespace c = false.
Proof.
  induction s as [|d s IH]; simpl; [discriminate|].
  destruct (is_js_whitespace d) eqn:E; [exact IH|].
  intros H. inversion H; subst. exact E.
Qed.

(** [context.trim()] is truthy exactly when [context] has a character that
    is not white space. *)
Lemma trim_truthy (s : jstring) :
  string_truthy (js_trim s) = negb (whitespace_only s).
Proof.
  unfold js_trim. destruct (trim_start s) as [|c rest] eqn:E.
  - apply trim_start_nil in E. rewrite E. reflexivity.
  - assert (Hs : whitespace_only s = false).
    { destruct (whitespace_only s) eqn:W; [|reflexivity].
      apply trim_start_nil in W. congruence. }
    rewrite Hs. apply trim_start_head in E.
    destruct (trim_start (rev (c :: rest))) as [|d more] eqn:T.
    + apply trim_start_nil in T. unfold whitespace_only in T.
      simpl in T. rewrite forallb_app in T. simpl in T. rewrite E in T.
      rewrite andb_false_r in T. discriminate.
    + destruct (rev (d :: more)) eqn:R; [|reflexivity].
      apply (f_equal (@List.length N)) in R. rewrite length_rev in R. discriminate.
Qed.

Lemma assoc_set_prop_same (key : jstring) (x : JsValue) (props : list (jstring * JsValue)) :
  assoc key (set_prop key x props) = Some x.
Proof.
  induction props as [|[k v] rest IH]; simpl.
  - now rewrite jstring_eqb_refl.
  - destruct (jstring_eqb k key) eqn:E; simpl; rewrite E; auto.
Qed.

Lemma assoc_set_prop_other (key other : jstring) (x : JsValue)
  (props : list (jstring * JsValue)) :
  other <> key -> assoc other (set_prop key x props) = assoc other props.
Proof.
  intros H. induction props as [|[k v] rest IH]; simpl.
  - rewrite jstring_eqb_neq; auto.
  - destruct (jstring_eqb k key) eqn:E; simpl.
    + apply jstring_eqb_eq in E. subst k.
      rewrite jstring_eqb_neq by congruence. reflexivity.
    + now rewrite IH.
Qed.

Lemma js_get_throws_nullish (v : JsValue) (key : string) (e : Thrown) :
  js_get v key = Threw e -> is_nullish v = true.
Proof.
  destruct v; simpl; try discriminate; try reflexivity.
  destruct (assoc (lit key) props); discriminate.
Qed.

(** The text the context-injection hook assigns when [system] holds a
    string, and when there is no [system]. *)
Lemma system_text_string (output : list (jstring * JsValue)) (context s : jstring) :
  assoc (lit "system") output = Some (JStr s) ->
  system_text output context = Returned (s ++ [10%N; 10%N] ++ context).
Proof.
  intros Hs. unfold system_text, js_add_string, ToString, js_get_opt, js_get.
  rewrite Hs. cbn. now rewrite <- app_assoc.
Qed.

Lemma system_text_absent (output : list (jstring * JsValue)) (context : jstring) :
  assoc (lit "system") output = None ->
  system_text output context = Returned ([10%N; 10%N] ++ context).
Proof.
  intros Hs. unfold system_text, js_add_string, ToString, js_get_opt, js_get.
  rewrite Hs. reflexivity.
Qed.

(** On messages none of which is [undefined] or [null] the filter of the
    compaction hook is an ordinary filter. *)

Lemma filter_assistant_filter (messages : list JsValue) :
  Forall (fun m => is_nullish m = false) messages ->
  filter_assistant messages = Returned (filter is_assistant messages).
Proof.
  induction 1 as [|m rest Hm _ IH]; simpl; [reflexivity|].
  rewrite IH. unfold is_assistant, js_get_opt.
  destruct m; simpl in Hm; try discriminate; simpl; try reflexivity.
  destruct (assoc (lit "role") props); reflexivity.
Qed.

Lemma filter_none (A : Type) (f : A -> bool) (l : list A) :
  Forall (fun x => f x = false) l -> filter f l = [].
Proof.
  induction 1 as [|x l Hx _ IH]; simpl; [reflexivity|]. now rewrite Hx.
Qed.

Lemma last_assistant_found (input : JsValue) (before after : list JsValue)
  (m : JsValue) :
  js_get input "messages" = Returned (JArr (before ++ m :: after)) ->
  Forall (fun x => is_nullish x = false) (before ++ m :: after) ->
  is_assistant m = true ->
  Forall (fun x => is_assistant x = false) after ->
  lastAssistantMessage input
  = Returned (nullish (js_get_opt m "content") (JStr [])).
Proof.
  intros Hin Hall Hm Hafter. unfold lastAssistantMessage. rewrite Hin.
  cbn [nullish is_nullish]. rewrite (filter_assistant_filter Hall).
  rewrite filter_app. cbn [filter]. rewrite Hm, (filter_none _ Hafter).
  unfold pop. rewrite last_last. reflexivity.
Qed.

(* ------------------------------------------------------------------ *)
(** ** Counting requests *)

Lemma count_fetches_app (a b : list Event) :
  count_fetches (a ++ b) = (count_fetches a + count_fetches b)%nat.
Proof. unfold count_fetches. now rewrite filter_app, length_app. Qed.

Lemma count_init_posts_app (a b : list Event) :
  count_init_posts (a ++ b) = (count_init_posts a + count_init_posts b)%nat.
Proof. unfold count_init_posts. now rewrite filter_app, length_app. Qed.

Lemma count_init_posts_probed (cfg : Config) (tr : list Event) :
  count_init_posts (probed cfg tr) = count_init_posts tr.
Proof.
  unfold probed. rewrite count_init_posts_app.
  change (count_init_posts [EvFetch (readiness_request cfg)]) with 0%nat. lia.
Qed.

Lemma count_init_posts_sent (cfg : Config) (input : JsValue) :
  count_init_posts [EvFetch (init_request cfg input)] = 1%nat.
Proof. reflexivity. Qed.

Lemma count_init_posts_log (m : jstring) (e : Thrown) :
  count_init_posts [EvLog m e] = 0%nat.
Proof. reflexivity. Qed.

Ltac count_posts :=
  cbn [trace negb andb];
  rewrite ?count_init_posts_app, ?count_init_posts_probed,
    ?count_init_posts_sent, ?count_init_posts_log;
  lia.

Lemma run_calls_app (cfg : Config) (o : Oracle) (a b : list HostCall) (w : World) :
  run_calls cfg o (a ++ b) w = run_calls cfg o b (run_calls cfg o a w).
Proof. unfold run_calls. apply fold_left_app. Qed.

(* ------------------------------------------------------------------ *)
(** ** The liveness check *)

Section Liveness.

Variable cfg : Config.
Variable o : Oracle.

(** C6. [ensureWorker] always resolves: whatever the network does, it issues
    exactly one request, a GET of [/api/readiness] with a timeout of 5000 ms
    (at most five seconds), leaves the session alone, and resolves to [true]
    when that request is answered with a success status and to [false] when
    it rejects (network error, timeout) or is answered with any other
    status. *)
Theorem ensureWorker_resolves_single_probe (st : PluginState) (tr : list Event) :
  run o (ensureWorker cfg) st tr
  = mkResult
      (Returned (match o tr (readiness_request cfg) with
                 | Returned response => (200 <=? resp_status response)
                                        && (resp_status response <=? 299)
                 | Threw _ => false
                 end))
      st (tr ++ [EvFetch (readiness_request cfg)])
  /\ req_method (readiness_request cfg) = GET
  /\ req_path (readiness_request cfg) = lit "/api/readiness"
  /\ exists ms, req_timeout_ms (readiness_request cfg) = Some ms /\ 0 < ms <= 5000.
Proof.
  split; [apply run_ensureWorker|].
  repeat split. exists 5000. split; [reflexivity|lia].
Qed.

End Liveness.

(* ------------------------------------------------------------------ *)
(** ** Session sequencing *)

Section Sequencing.

Variable cfg : Config.
Variable o : Oracle.

(** One chat-message event: a POST to [sessions/init] goes out exactly when
    the liveness check passes and the session is not initialized yet. *)
Lemma chat_message_posts (input output : JsValue) (st : PluginState)
  (tr : list Event) :
  count_init_posts (trace (run o (chat_message cfg input output) st tr))
  = (count_init_posts tr
     + (if alive cfg o tr && negb (sessionInitialized st) then 1 else 0))%nat.
Proof.
  rewrite run_chat_message. cbv zeta.
  destruct (alive cfg o tr); [|count_posts].
  destruct (sessionInitialized st); [count_posts|].
  destruct (answer cfg o tr (init_request cfg input)) as [response|e]; [|count_posts].
  destruct (ok response); [|count_posts].
  destruct (resp_json response) as [result|e]; [|count_posts].
  destruct (js_get result "sessionDbId"); count_posts.
Qed.

(** Once the session is initialized a chat-message event changes nothing. *)
Lemma chat_message_initialized (input output : JsValue) (st : PluginState)
  (tr : list Event) :
  sessionInitialized st = true ->
  run o (chat_message cfg input output) st tr
  = mkResult (Returned tt) st (probed cfg tr).
Proof.
  intros H. rewrite run_chat_message, H. destruct (alive cfg o tr); reflexivity.
Qed.

Lemma run_handle_chat (input output : JsValue) (st : PluginState) (tr : list Event) :
  state (run o (handle cfg (ChatMessage input output)) st tr)
  = state (run o (chat_message cfg input output) st tr)
  /\ trace (run o (handle cfg (ChatMessage input output)) st tr)
     = trace (run o (chat_message cfg input output) st tr).
Proof.
  cbn [handle]. rewrite run_bind.
  destruct (completion (run o (chat_message cfg input output) st tr)); split; reflexivity.
Qed.

Lemma step_chat (input output : JsValue) (w : World) :
  vars (step cfg o w (ChatMessage input output))
  = state (run o (chat_message cfg input output) (vars w) (events w))
  /\ events (step cfg o w (ChatMessage input output))
     = trace (run o (chat_message cfg input output) (vars w) (events w)).
Proof. unfold step. cbn [vars events]. apply run_handle_chat. Qed.

Lemma chat_calls_bound (inputs : list (JsValue * JsValue)) :
  forall w,
    (count_init_posts (events (run_calls cfg o (chat_calls inputs) w))
     <= count_init_posts (events w) + List.length inputs)%nat.
Proof.
  induction inputs as [|[input output] rest IH]; intros w;
    cbn [chat_calls map run_calls fold_left List.length fst snd]; [lia|].
  specialize (IH (step cfg o w (ChatMessage input output))).
  unfold run_calls, chat_calls in IH. etransitivity; [exact IH|].
  destruct (step_chat input output w) as [_ Et].
  rewrite Et, chat_message_posts.
  destruct (alive cfg o (events w) && negb (sessionInitialized (vars w)))%bool; lia.
Qed.

Lemma chat_calls_initialized (inputs : list (JsValue * JsValue)) :
  forall w,
    sessionInitialized (vars w) = true ->
    vars (run_calls cfg o (chat_calls inputs) w) = vars w
    /\ count_init_posts (events (run_calls cfg o (chat_calls inputs) w))
       = count_init_posts (events w).
Proof.
  induction inputs as [|[input output] rest IH]; intros w Hw;
    cbn [chat_calls map run_calls fold_left fst snd]; [auto|].
  destruct (step_chat input output w) as [Es Et].
  rewrite (chat_message_initialized input output (vars w) (events w) Hw) in Es, Et.
  cbn [state trace] in Es, Et.
  destruct (IH (step cfg o w (ChatMessage input output))) as [Hv Hc].
  { rewrite Es. exact Hw. }
  unfold run_calls, chat_calls in Hv, Hc. rewrite Hv, Hc.
  rewrite Es, Et, count_init_posts_probed. auto.
Qed.

(** The outcome of one initialization attempt decides the flag: on an
    uninitialized session a chat-message event sets it exactly when the
    liveness check passes and [sessions/init] is answered with a success
    status and a body that decodes to something other than [null] or
    [undefined]; every other outcome leaves the closure variables as they
    were. *)
Lemma chat_message_flag (input output : JsValue) (st : PluginState)
  (tr : list Event) :
  sessionInitialized st = false ->
  (sessionInitialized (state (run o (chat_message cfg input output) st tr)) = true
   <-> alive cfg o tr = true
       /\ exists response result,
            answer cfg o tr (init_request cfg input) = Returned response
            /\ ok response = true
            /\ resp_json response = Returned result
            /\ is_nullish result = false)
  /\ (sessionInitialized (state (run o (chat_message cfg input output) st tr)) = false ->
      state (run o (chat_message cfg input output) st tr) = st).
Proof.
  intros Hi. rewrite run_chat_message, Hi. cbv zeta.
  destruct (alive cfg o tr); cbn [negb state].
  2:{ rewrite Hi. split; [|reflexivity]. split; [discriminate|].
      intros [F _]. discriminate F. }
  destruct (answer cfg o tr (init_request cfg input)) as [response|e].
  2:{ cbn [state]. rewrite Hi. split; [|reflexivity]. split; [discriminate|].
      intros [_ (r & j & F & _)]. discriminate F. }
  destruct (ok response) eqn:Hok.
  2:{ cbn [state]. rewrite Hi. split; [|reflexivity]. split; [discriminate|].
      intros [_ (r & j & F & Hr & _)]. congruence. }
  destruct (resp_json response) as [result|e] eqn:Hj.
  2:{ cbn [state]. rewrite Hi. split; [|reflexivity]. split; [discriminate|].
      intros [_ (r & j & F & _ & Hr & _)]. congruence. }
  destruct (js_get result "sessionDbId") as [dbid|e] eqn:Hd; cbn [state].
  - split; [|discriminate]. split; [|reflexivity]. intros _. split; [reflexivity|].
    exists response, result. repeat split; auto.
    destruct result; try reflexivity; discriminate Hd.
  - rewrite Hi. split; [|reflexivity]. split; [discriminate|].
    intros [_ (r & j & F & _ & Hr & Hn)].
    assert (Er : r = response) by congruence. subst r.
    assert (Ej : j = result) by congruence. subst j.
    apply js_get_throws_nullish in Hd. congruence.
Qed.

(** C1 (amended). Over any sequence of chat-message events and any behaviour
    of the worker: each event issues at most one POST to [sessions/init],
    and it issues one exactly when its liveness check passes and the session
    is not initialized yet.  An attempt sets the flag exactly when it
    succeeds (liveness passed, success status, decodable body); a failed
    attempt leaves the session state as it was, so the next chat-message
    event that passes the liveness check issues a POST again.  Once an
    initialization has succeeded, no later chat-message event issues another
    one and the session state stays as it is. *)
Theorem init_post_until_success
  (inputs later : list (JsValue * JsValue)) (w : World) :
  let w1 := run_calls cfg o (chat_calls inputs) w in
  let w2 := run_calls cfg o (chat_calls (inputs ++ later)) w in
  (count_init_posts (events w1) <= count_init_posts (events w) + List.length inputs)%nat
  /\ (forall input output,
        count_init_posts (events (step cfg o w1 (ChatMessage input output)))
        = (count_init_posts (events w1)
           + (if alive cfg o (events w1) && negb (sessionInitialized (vars w1))
              then 1 else 0))%nat)
  /\ (forall input output,
        sessionInitialized (vars w1) = false ->
        (sessionInitialized (vars (step cfg o w1 (ChatMessage input output))) = true
         <-> alive cfg o (events w1) = true
             /\ exists response result,
                  answer cfg o (events w1) (init_request cfg input)
                  = Returned response
                  /\ ok response = true
                  /\ resp_json response = Returned result
                  /\ is_nullish result = false)
        /\ (sessionInitialized (vars (step cfg o w1 (ChatMessage input output)))
            = false ->
            vars (step cfg o w1 (ChatMessage input output)) = vars w1))
  /\ (forall input output again output',
        sessionInitialized (vars (step cfg o w1 (ChatMessage input output))) = false ->
        alive cfg o (events (step cfg o w1 (ChatMessage input output))) = true ->
        count_init_posts
          (events (step cfg o (step cfg o w1 (ChatMessage input output))
                     (ChatMessage again output')))
        = S (count_init_posts (events (step cfg o w1 (ChatMessage input output)))))
  /\ (sessionInitialized (vars w1) = true ->
      count_init_posts (events w2) = count_init_posts (events w1)
      /\ vars w2 = vars w1).
Proof.
  intros w1 w2. split; [apply chat_calls_bound|]. split; [|split; [|split]].
  - intros input output. destruct (step_chat input output w1) as [_ Et].
    rewrite Et. apply chat_message_posts.
  - intros input output Hi. destruct (step_chat input output w1) as [Es _].
    rewrite Es. apply chat_message_flag, Hi.
  - intros input output again output' Hf Ha.
    destruct (step_chat again output' (step cfg o w1 (ChatMessage input output)))
      as [_ Et].
    rewrite Et, chat_message_posts, Ha, Hf. cbn [andb negb]. lia.
  - intros Hinit. subst w2. unfold chat_calls. rewrite map_app, run_calls_app.
    fold (chat_calls inputs). fold (chat_calls later). fold w1.
    destruct (chat_calls_initialized later w1 Hinit) as [Hv Hc]. auto.
Qed.

(** C2 (amended). While the session is uninitialized, the tool-execution and
    compaction hooks resolve after the liveness check alone: the only
    request either issues is the readiness probe, nothing is dispatched to
    [sessions/observations] or [sessions/summarize], nothing is logged and
    the session state is unchanged. *)
Theorem uninitialized_hooks_only_probe
  (input other : JsValue) (st : PluginState) (tr : list Event) :
  sessionInitialized st = false ->
  run o (tool_execute_after cfg input other) st tr
  = mkResult (Returned tt) st (tr ++ [EvFetch (readiness_request cfg)])
  /\ run o (experimental_session_compacting cfg input other) st tr
     = mkResult (Returned tt) st (tr ++ [EvFetch (readiness_request cfg)])
  /\ count_fetches (tr ++ [EvFetch (readiness_request cfg)])
     = S (count_fetches tr).
Proof.
  intros H. rewrite run_tool_execute_after, run_session_compacting, H.
  unfold probed. split; [|split].
  - destruct (alive cfg o tr); reflexivity.
  - destruct (alive cfg o tr); reflexivity.
  - rewrite count_fetches_app.
    change (count_fetches [EvFetch (readiness_request cfg)]) with 1%nat. lia.
Qed.

(** Only the chat-message hook assigns the closure variables. *)
Lemma ensureWorker_no_write : no_write (ensureWorker cfg).
Proof.
  unfold ensureWorker. apply no_write_try_catch; [|intros; constructor].
  apply no_write_bind; [apply no_write_await_fetch|intros; constructor].
Qed.

(** What follows the liveness check in each tool: a [try] block made of
    evaluations and one [fetch], and a [catch] that returns. *)
Lemma tool_body_no_write (p : Prog JsValue) (h : Thrown -> JsValue) (v : JsValue) :
  no_write p ->
  no_write (alive <- ensureWorker cfg ;;
            if negb alive then Ret v else try_catch p (fun e => Ret (h e))).
Proof.
  intros Hp. apply no_write_bind; [apply ensureWorker_no_write|].
  intros [|]; cbn [negb].
  - apply no_write_try_catch; [exact Hp|]. intros e. apply nw_ret.
  - apply nw_ret.
Qed.

Lemma respond_no_write (r : Request) (msg : Response -> jstring) :
  no_write (response <- await_fetch r ;;
            if negb (ok response) then Ret (error_object (msg response))
            else eval (resp_json response)).
Proof.
  apply no_write_bind; [apply no_write_await_fetch|]. intros response.
  destruct (ok response); cbn [negb]; [apply no_write_eval|apply nw_ret].
Qed.

Lemma tool_execute_no_write (t : ToolName) (params : JsValue) :
  no_write (tool_execute cfg t params).
Proof.
  destruct t; cbn [tool_execute].
  - apply tool_body_no_write with
      (h := fun e => error_object (lit "Search error: " ++ error_text e)).
    apply no_write_bind; [apply no_write_eval|]. intros entries.
    apply no_write_bind; [apply no_write_eval|]. intros searchParams.
    apply respond_no_write with
      (msg := fun response => lit "Search failed: " ++ decimal (resp_status response)).
  - apply tool_body_no_write with
      (h := fun e => error_object (lit "Timeline error: " ++ error_text e)).
    apply no_write_bind; [apply no_write_eval|]. intros entries.
    apply no_write_bind; [apply no_write_eval|]. intros searchParams.
    apply respond_no_write with
      (msg := fun response => lit "Timeline failed: " ++ decimal (resp_status response)).
  - apply tool_body_no_write with
      (h := fun e => error_object (lit "Fetch error: " ++ error_text e)).
    apply respond_no_write with
      (msg := fun response => lit "Fetch failed: " ++ decimal (resp_status response)).
Qed.

Lemma handle_keeps_state (c : HostCall) (st : PluginState) (tr : list Event) :
  (forall input output, c <> ChatMessage input output) ->
  state (run o (handle cfg c) st tr) = st.
Proof.
  intros Hc. destruct (run_handle cfg o c st tr) as [Es _]. rewrite Es.
  destruct c as [input output|input toolOutput|input output|input output|t params].
  - now elim (Hc input output).
  - rewrite run_tool_execute_after.
    destruct (alive cfg o tr), (sessionInitialized st); cbn; try reflexivity.
    destruct (js_get input "tool"); [|reflexivity].
    destruct (answer cfg o tr _); reflexivity.
  - rewrite run_system_transform.
    destruct (alive cfg o tr); cbn; try reflexivity.
    destruct (encodeURIComponent _); [|reflexivity].
    destruct (answer cfg o tr _) as [response|e]; [|reflexivity].
    destruct (ok response); [|reflexivity].
    destruct (resp_text response) as [context|e]; [|reflexivity].
    destruct (string_truthy (js_trim context)); [|reflexivity].
    destruct (system_text output context); reflexivity.
  - rewrite run_session_compacting.
    destruct (alive cfg o tr), (sessionInitialized st); cbn; try reflexivity.
    destruct (lastAssistantMessage input); [|reflexivity].
    destruct (answer cfg o tr _); reflexivity.
  - apply no_write_state, tool_execute_no_write.
Qed.

(** What one call can do to the closure variables. *)
Lemma handle_state_cases (c : HostCall) (st : PluginState) (tr : list Event) :
  state (run o (handle cfg c) st tr) = st
  \/ (sessionInitialized st = false
      /\ exists input output response result dbid,
           c = ChatMessage input output
           /\ alive cfg o tr = true
           /\ answer cfg o tr (init_request cfg input) = Returned response
           /\ ok response = true
           /\ resp_json response = Returned result
           /\ js_get result "sessionDbId" = Returned dbid
           /\ state (run o (handle cfg c) st tr)
              = {| sessionInitialized := true; sessionDbId := nullish dbid JNull |}).
Proof.
  destruct c as [input output|input toolOutput|input output|input output|t params];
    try (left; apply handle_keeps_state; intros; discriminate).
  destruct (run_handle cfg o (ChatMessage input output) st tr) as [Es _].
  rewrite Es, run_chat_message. cbv zeta.
  destruct (alive cfg o tr) eqn:Ha; cbn [negb]; [|now left].
  destruct (sessionInitialized st) eqn:Hi; [now left|].
  destruct (answer cfg o tr (init_request cfg input)) as [response|e] eqn:Hr; [|now left].
  destruct (ok response) eqn:Hok; [|now left].
  destruct (resp_json response) as [result|e] eqn:Hj; [|now left].
  destruct (js_get result "sessionDbId") as [dbid|e] eqn:Hd; [|now left].
  right. split; [reflexivity|].
  exists input, output, response, result, dbid. repeat split; auto.
Qed.

Lemma step_vars (w : World) (c : HostCall) :
  vars (step cfg o w c) = state (run o (handle cfg c) (vars w) (events w)).
Proof. reflexivity. Qed.

Lemma run_calls_initialized (calls : list HostCall) :
  forall w,
    sessionInitialized (vars w) = true -> vars (run_calls cfg o calls w) = vars w.
Proof.
  induction calls as [|c rest IH]; intros w Hw; cbn [run_calls fold_left]; [reflexivity|].
  assert (E : vars (step cfg o w c) = vars w).
  { rewrite step_vars.
    destruct (handle_state_cases c (vars w) (events w)) as [E|[Hf _]]; [exact E|].
    congruence. }
  unfold run_calls in IH. rewrite IH; rewrite E; auto.
Qed.

Lemma run_calls_dbid_null (calls : list HostCall) :
  forall w,
    (sessionInitialized (vars w) = false -> sessionDbId (vars w) = JNull) ->
    sessionInitialized (vars (run_calls cfg o calls w)) = false ->
    sessionDbId (vars (run_calls cfg o calls w)) = JNull.
Proof.
  induction calls as [|c rest IH]; intros w Hw; cbn [run_calls fold_left]; [exact Hw|].
  apply IH. rewrite step_vars.
  destruct (handle_state_cases c (vars w) (events w))
    as [E|[_ (input & output & response & result & dbid & _ & _ & _ & _ & _ & _ & E)]];
    rewrite E; [exact Hw|]. cbn. discriminate.
Qed.

(** C9. The initialized flag starts [false] (and the remote id [null]).  One
    call of any hook or tool leaves an initialized session exactly as it
    is; it turns the flag from [false] to [true] only if it is a
    chat-message event whose liveness check passed and whose POST to
    [sessions/init] was answered with a success status and a decodable
    body, and then the remote id is that body's [sessionDbId], or [null]
    when the body has none; a call that leaves the flag [false] leaves the
    remote id alone.  So over any sequence of calls from construction the
    remote id is [null] as long as the flag is [false], and once the flag is
    [true] no further sequence of calls changes either variable. *)
Theorem initialized_flag_lifecycle
  (c : HostCall) (st : PluginState) (tr : list Event) (calls more : list HostCall) :
  let r := run o (handle cfg c) st tr in
  let w := run_calls cfg o calls fresh in
  sessionInitialized initial_state = false
  /\ sessionDbId initial_state = JNull
  /\ (sessionInitialized st = true -> state r = st)
  /\ (sessionInitialized (state r) = false -> state r = st)
  /\ (sessionInitialized st = false -> sessionInitialized (state r) = true ->
      exists input output response result dbid,
        c = ChatMessage input output
        /\ alive cfg o tr = true
        /\ answer cfg o tr (init_request cfg input) = Returned response
        /\ ok response = true
        /\ resp_json response = Returned result
        /\ js_get result "sessionDbId" = Returned dbid
        /\ sessionDbId (state r) = nullish dbid JNull)
  /\ (sessionInitialized (vars w) = false -> sessionDbId (vars w) = JNull)
  /\ (sessionInitialized (vars w) = true -> vars (run_calls cfg o more w) = vars w).
Proof.
  intros r w. subst r w. split; [reflexivity|]. split; [reflexivity|].
  destruct (handle_state_cases c st tr)
    as [E|[Hf (input & output & response & result & dbid
               & Hc & Ha & Hr & Hok & Hj & Hd & E)]].
  - rewrite E. split; [auto|]. split; [auto|]. split; [congruence|].
    split; [apply run_calls_dbid_null; reflexivity|apply run_calls_initialized].
  - rewrite E. split; [congruence|]. split; [cbn; discriminate|].
    split.
    + intros _ _. exists input, output, response, result, dbid. repeat split; auto.
    + split; [apply run_calls_dbid_null; reflexivity|apply run_calls_initialized].
Qed.

(** C8. Any number of calls of the query tools, with any parameters and
    whatever the worker answers, leaves [sessionInitialized] and
    [sessionDbId] as they were. *)
Theorem query_tools_keep_session_state
  (calls : list (ToolName * JsValue)) (w : World) :
  sessionInitialized (vars (run_calls cfg o (tool_calls calls) w))
  = sessionInitialized (vars w)
  /\ sessionDbId (vars (run_calls cfg o (tool_calls calls) w)) = sessionDbId (vars w).
Proof.
  revert w. induction calls as [|[t params] rest IH]; intros w;
    cbn [tool_calls map run_calls fold_left fst snd]; [auto|].
  specialize (IH (step cfg o w (ToolCall t params))).
  unfold run_calls, tool_calls in IH. destruct IH as [Hi Hd]. rewrite Hi, Hd.
  rewrite step_vars, handle_keeps_state by (intros; discriminate). auto.
Qed.

End Sequencing.

(* ------------------------------------------------------------------ *)
(** ** The remote session id *)

Section RemoteId.

Variable cfg : Config.
Variable o : Oracle.

Lemma ensureWorker_no_dbid_read : no_dbid_read (ensureWorker cfg).
Proof.
  unfold ensureWorker. apply no_dbid_read_try_catch; [|intros; apply ndr_ret].
  apply no_dbid_read_bind; [apply no_dbid_read_await_fetch|intros; apply ndr_ret].
Qed.

Ltac never_reads :=
  repeat first
    [ apply ndr_ret
    | apply no_dbid_read_eval
    | apply no_dbid_read_await_fetch
    | apply ensureWorker_no_dbid_read
    | match goal with
      | |- no_dbid_read (if ?b then _ else _) => destruct b
      | |- no_dbid_read (bind _ _) => apply no_dbid_read_bind; [|intros ?]
      | |- no_dbid_read (try_catch _ _) => apply no_dbid_read_try_catch; [|intros ?]
      | |- no_dbid_read (console_error _ _) => apply ndr_log
      | |- no_dbid_read read_sessionInitialized => apply ndr_read_init; intros ?
      | |- no_dbid_read (write_sessionInitialized _) => apply ndr_write_init
      | |- no_dbid_read (write_sessionDbId _) => apply ndr_write_dbid
      end ].

Lemma handle_no_dbid_read (c : HostCall) : no_dbid_read (handle cfg c).
Proof.
  destruct c as [input output|input toolOutput|input output|input output|t params];
    cbn [handle].
  - unfold chat_message. never_reads.
  - unfold tool_execute_after. never_reads.
  - unfold experimental_chat_system_transform. cbv zeta. never_reads.
  - unfold experimental_session_compacting. never_reads.
  - destruct t; cbn [tool_execute];
      [unfold mem_search_execute|unfold mem_timeline_execute
       |unfold mem_get_observations_execute]; never_reads.
Qed.

Lemma step_same_view (c : HostCall) (w1 w2 : World) :
  seen w1 = seen w2 -> events w1 = events w2 ->
  sessionInitialized (vars w1) = sessionInitialized (vars w2) ->
  seen (step cfg o w1 c) = seen (step cfg o w2 c)
  /\ events (step cfg o w1 c) = events (step cfg o w2 c)
  /\ sessionInitialized (vars (step cfg o w1 c))
     = sessionInitialized (vars (step cfg o w2 c)).
Proof.
  intros Hs He Hi. unfold step. cbn [seen events vars]. rewrite Hs, He.
  destruct (no_dbid_read_run o (handle_no_dbid_read c) (vars w1) (vars w2)
              (events w2) Hi) as (Ec & Et & Ei).
  rewrite Ec, Et, Ei. auto.
Qed.

(** Every request to a session endpoint names the session by [sessionId]. *)
Lemma carries_readiness : carries_sessionId cfg (EvFetch (readiness_request cfg)).
Proof. cbn. discriminate. Qed.

Lemma carries_log (m : jstring) (e : Thrown) : carries_sessionId cfg (EvLog m e).
Proof. exact I. Qed.

Lemma carries_init (input : JsValue) :
  carries_sessionId cfg (EvFetch (init_request cfg input)).
Proof. intros _. eexists. split; reflexivity. Qed.

Lemma carries_observation (tool toolOutput : JsValue) :
  carries_sessionId cfg
    (EvFetch (post_json cfg "/api/sessions/observations"
                (observation_body cfg tool toolOutput))).
Proof. intros _. eexists. split; reflexivity. Qed.

Lemma carries_summarize (last_message : JsValue) :
  carries_sessionId cfg
    (EvFetch (post_json cfg "/api/sessions/summarize" (summarize_body cfg last_message))).
Proof. intros _. eexists. split; reflexivity. Qed.

Lemma carries_inject (query : list (jstring * jstring)) :
  carries_sessionId cfg (EvFetch (get_query cfg "/api/context/inject" query)).
Proof. cbn. discriminate. Qed.

Lemma carries_tool (t : ToolName) (params : JsValue) (req : Request) :
  tool_request cfg t params = Returned req -> carries_sessionId cfg (EvFetch req).
Proof.
  destruct t; cbn [tool_request];
    try (destruct (Object_entries params) as [entries|e]; [|discriminate];
         destruct (collect_params entries []); [|discriminate]);
    intros E; inversion E; subst; cbn; discriminate.
Qed.

Ltac carried H :=
  unfold probed;
  repeat (apply Forall_app; split);
  try exact H;
  repeat apply Forall_cons; try apply Forall_nil;
  first [ apply carries_readiness | apply carries_log | apply carries_init
        | apply carries_observation | apply carries_summarize
        | apply carries_inject ].

Lemma handle_carries (c : HostCall) (st : PluginState) (tr : list Event) :
  Forall (carries_sessionId cfg) tr ->
  Forall (carries_sessionId cfg) (trace (run o (handle cfg c) st tr)).
Proof.
  intros H. destruct (run_handle cfg o c st tr) as [_ Et]. rewrite Et. clear Et.
  destruct c as [input output|input toolOutput|input output|input output|t params].
  - rewrite run_chat_message. cbv zeta.
    destruct (alive cfg o tr); cbn [negb]; [|carried H].
    destruct (sessionInitialized st); [carried H|].
    destruct (answer cfg o tr _) as [response|e]; [|carried H].
    destruct (ok response); [|carried H].
    destruct (resp_json response) as [result|e]; [|carried H].
    destruct (js_get result "sessionDbId"); carried H.
  - rewrite run_tool_execute_after. cbv zeta.
    destruct (alive cfg o tr); cbn [negb]; [|carried H].
    destruct (sessionInitialized st); cbn [negb]; [|carried H].
    destruct (js_get input "tool"); [|carried H].
    destruct (answer cfg o tr _); carried H.
  - rewrite run_system_transform. cbv zeta.
    destruct (alive cfg o tr); cbn [negb]; [|carried H].
    destruct (encodeURIComponent _); [|carried H].
    destruct (answer cfg o tr _) as [response|e]; [|carried H].
    destruct (ok response); [|carried H].
    destruct (resp_text response) as [context|e]; [|carried H].
    destruct (string_truthy (js_trim context)); [|carried H].
    destruct (system_text output context); carried H.
  - rewrite run_session_compacting. cbv zeta.
    destruct (alive cfg o tr); cbn [negb]; [|carried H].
    destruct (sessionInitialized st); cbn [negb]; [|carried H].
    destruct (lastAssistantMessage input); [|carried H].
    destruct (answer cfg o tr _); carried H.
  - rewrite run_tool_execute. cbv zeta.
    destruct (alive cfg o tr); cbn [negb]; [|carried H].
    destruct (tool_request cfg t params) as [req|e] eqn:Hreq; [|carried H].
    assert (Hc : Forall (carries_sessionId cfg) (probed cfg tr ++ [EvFetch req])).
    { apply Forall_app. split; [carried H|].
      apply Forall_cons; [exact (carries_tool t params Hreq)|apply Forall_nil]. }
    destruct (answer cfg o tr req) as [response|e]; [|exact Hc].
    destruct (ok response); cbn [negb]; [|exact Hc].
    destruct (resp_json response); exact Hc.
Qed.

(** C10. The remote session id is never read.  Two runs of the same calls
    against the same worker that differ only in what [sessionDbId] holds
    are indistinguishable: the host sees the same completions, the same
    requests and log lines go out, and the initialized flag ends up the
    same.  And every request to [sessions/init], [sessions/observations] or
    [sessions/summarize] carries the locally generated [sessionId] as its
    [contentSessionId]. *)
Theorem sessionDbId_never_read (calls : list HostCall) (w1 w2 : World) :
  seen w1 = seen w2 ->
  events w1 = events w2 ->
  sessionInitialized (vars w1) = sessionInitialized (vars w2) ->
  seen (run_calls cfg o calls w1) = seen (run_calls cfg o calls w2)
  /\ events (run_calls cfg o calls w1) = events (run_calls cfg o calls w2)
  /\ sessionInitialized (vars (run_calls cfg o calls w1))
     = sessionInitialized (vars (run_calls cfg o calls w2))
  /\ (Forall (carries_sessionId cfg) (events w1) ->
      Forall (carries_sessionId cfg) (events (run_calls cfg o calls w1))).
Proof.
  revert w1 w2. induction calls as [|c rest IH]; intros w1 w2 Hs He Hi;
    cbn [run_calls fold_left]; [auto|].
  destruct (step_same_view c w1 w2 Hs He Hi) as (Hs' & He' & Hi').
  destruct (IH _ _ Hs' He' Hi') as (Es & Ee & Ei & Hc).
  unfold run_calls in Es, Ee, Ei, Hc. repeat split; auto.
  intros H. apply Hc. unfold step. cbn [events]. apply handle_carries, H.
Qed.

End RemoteId.

(* ------------------------------------------------------------------ *)
(** ** Dispatch and query tools *)

Section Dispatch.

Variable cfg : Config.
Variable o : Oracle.

(** C4. When the context-injection hook has retrieved a context (liveness
    passed, the request was answered with a success status and its text was
    read): if the context is empty or white space only, the host's output
    object is exactly as it was; otherwise its [system] property becomes the
    previous content, then ['\n\n'], then the retrieved context, with an
    absent [system] counting as empty content, and every other property of
    the object is untouched. *)
Theorem context_injection_guard
  (input : JsValue) (output : list (jstring * JsValue)) (st : PluginState)
  (tr : list Event) (encoded : jstring) (response : Response) (context : jstring) :
  alive cfg o tr = true ->
  encodeURIComponent (nullish (js_get_opt (project cfg) "name") (JStr (lit "unknown")))
  = Returned encoded ->
  answer cfg o tr (get_query cfg "/api/context/inject" [(lit "projects", encoded)])
  = Returned response ->
  ok response = true ->
  resp_text response = Returned context ->
  let r := run o (experimental_chat_system_transform cfg input output) st tr in
  (whitespace_only context = true -> completion r = Returned output)
  /\ (whitespace_only context = false ->
      exists output',
        completion r = Returned output'
        /\ (forall s, assoc (lit "system") output = Some (JStr s) ->
                      assoc (lit "system") output'
                      = Some (JStr (s ++ [10%N; 10%N] ++ context)))
        /\ (assoc (lit "system") output = None ->
            assoc (lit "system") output' = Some (JStr ([10%N; 10%N] ++ context)))
        /\ (forall key, key <> lit "system" -> assoc key output' = assoc key output)).
Proof.
  intros Ha He Hr Hok Ht r. subst r.
  rewrite run_system_transform, Ha, He. cbv zeta. cbn [negb].
  rewrite Hr, Hok, Ht, trim_truthy. split.
  - intros W. rewrite W. reflexivity.
  - intros W. rewrite W. cbn [negb].
    destruct (system_text output context) as [text|e] eqn:Hx; cbn [completion].
    + eexists. split; [reflexivity|]. split; [|split].
      * intros s Hs. rewrite assoc_set_prop_same.
        rewrite (system_text_string output context Hs) in Hx. congruence.
      * intros Hs. rewrite assoc_set_prop_same.
        rewrite (system_text_absent output context Hs) in Hx. congruence.
      * intros key Hk. apply assoc_set_prop_other, Hk.
    + exists output. split; [reflexivity|]. split; [|split].
      * intros s Hs.
        rewrite (system_text_string output context Hs) in Hx. discriminate Hx.
      * intros Hs.
        rewrite (system_text_absent output context Hs) in Hx. discriminate Hx.
      * reflexivity.
Qed.

(** C5. When the compaction hook runs on an initialized session with the
    worker alive, and [m] is the last message of the list whose role is
    ['assistant'], the request to [sessions/summarize] carries exactly two
    fields: the session id and [last_assistant_message], which is the
    content of [m] (the empty string when [m] has no content).  No other
    message is forwarded, and nothing else is requested. *)
Theorem compaction_forwards_last_assistant
  (input output : JsValue) (before after : list JsValue) (m : JsValue)
  (st : PluginState) (tr : list Event) :
  sessionInitialized st = true ->
  alive cfg o tr = true ->
  js_get input "messages" = Returned (JArr (before ++ m :: after)) ->
  Forall (fun x => is_nullish x = false) (before ++ m :: after) ->
  is_assistant m = true ->
  Forall (fun x => is_assistant x = false) after ->
  let forwarded :=
    JObj [ (lit "contentSessionId", JStr (sessionId cfg));
           (lit "last_assistant_message", nullish (js_get_opt m "content") (JStr [])) ] in
  exists more,
    trace (run o (experimental_session_compacting cfg input output) st tr)
    = tr ++ [EvFetch (readiness_request cfg);
             EvFetch (post_json cfg "/api/sessions/summarize" forwarded)] ++ more
    /\ count_fetches more = 0%nat
    /\ (forall content,
          js_get m "content" = Returned (JStr content) ->
          js_get forwarded "last_assistant_message" = Returned (JStr content)).
Proof.
  intros Hi Ha Hin Hall Hm Hafter forwarded. subst forwarded.
  rewrite run_session_compacting, Ha, Hi. cbv zeta. cbn [negb].
  rewrite (@last_assistant_found input before after m Hin Hall Hm Hafter).
  unfold probed, summarize_body.
  destruct (answer cfg o tr _) as [response|e]; cbn [trace].
  - exists []. rewrite <- app_assoc. repeat split.
    intros content Hc. unfold js_get_opt. rewrite Hc. reflexivity.
  - eexists [_]. rewrite <- !app_assoc. repeat split.
    intros content Hc. unfold js_get_opt. rewrite Hc. reflexivity.
Qed.

(** C7. A query tool never throws.  Its promise resolves to a value that is
    the decoded response body, unchanged, when the liveness check passed,
    the request could be built, the worker answered it with a success
    status and the body decoded; and that is an object [{ error: string }]
    in every other case: liveness failure, an exception while building the
    request, a rejected [fetch], a non-success status, or a body that fails
    to decode. *)
Theorem query_tools_never_throw
  (t : ToolName) (params : JsValue) (st : PluginState) (tr : list Event) :
  exists v,
    completion (run o (tool_execute cfg t params) st tr) = Returned v
    /\ (forall req response decoded,
          alive cfg o tr = true ->
          tool_request cfg t params = Returned req ->
          answer cfg o tr req = Returned response ->
          ok response = true ->
          resp_json response = Returned decoded ->
          v = decoded)
    /\ (alive cfg o tr = false
        \/ (exists e, tool_request cfg t params = Threw e)
        \/ (exists req,
              tool_request cfg t params = Returned req
              /\ ((exists e, answer cfg o tr req = Threw e)
                  \/ (exists response,
                        answer cfg o tr req = Returned response
                        /\ (ok response = false
                            \/ exists e, resp_json response = Threw e)))) ->
        exists message, v = JObj [(lit "error", JStr message)]).
Proof.
  rewrite run_tool_execute. cbv zeta.
  destruct (alive cfg o tr) eqn:Ha; cbn [negb].
  2:{ eexists. split; [reflexivity|]. split; [intros; discriminate|].
      intros _. eexists. reflexivity. }
  destruct (tool_request cfg t params) as [req|e] eqn:Hq.
  2:{ eexists. split; [reflexivity|]. split; [intros; discriminate|].
      intros _. eexists. reflexivity. }
  destruct (answer cfg o tr req) as [response|e] eqn:Hr.
  2:{ eexists. split; [reflexivity|]. split; [intros; congruence|].
      intros _. eexists. reflexivity. }
  destruct (ok response) eqn:Hok; cbn [negb].
  2:{ eexists. split; [reflexivity|]. split; [intros; congruence|].
      intros _. eexists. reflexivity. }
  destruct (resp_json response) as [decoded|e] eqn:Hj.
  2:{ eexists. split; [reflexivity|]. split; [intros; congruence|].
      intros _. eexists. reflexivity. }
  exists decoded. split; [reflexivity|]. split; [intros; congruence|].
  intros [F|[[e F]|(req' & Hq' & [[e F]|(response' & Hr' & [F|[e F]])])]];
    congruence.
Qed.

End Dispatch.

(* ------------------------------------------------------------------ *)
(** ** The adapter *)

Lemma js_get_defined (raw : JsValue) (key : string) :
  is_nullish raw = false -> js_get raw key = Returned (js_get_opt raw key).
Proof.
  intros H. unfold js_get_opt.
  destruct raw; try discriminate; simpl; try reflexivity.
  destruct (assoc (lit key) props); reflexivity.
Qed.

Lemma nullish_defined (a b : JsValue) :
  is_nullish b = false -> is_nullish (nullish a b) = false.
Proof. intros H. unfold nullish. destruct (is_nullish a) eqn:E; auto. Qed.

(** C3 (amended). On every raw input other than [undefined] and [null], the
    empty object included, [normalizeInput] returns.  The result has
    [platform] ['opencode']; [sessionId] is the host's or ['unknown'];
    [cwd] is the host's [cwd], else its [directory], else the working
    directory of the process, and is never [undefined] or [null]; [prompt],
    [toolName] and [toolInput] are the host's values as they are
    ([undefined] when the host omits them); [toolResponse] is the host's
    [toolOutput], else its [toolResponse]; [transcriptPath] is
    [undefined].  On the empty object every optional field is [undefined]
    and [cwd] is the working directory of the process. *)
Theorem normalizeInput_on_objects (process_cwd : jstring) (raw : JsValue) :
  is_nullish raw = false ->
  exists n,
    OpencodeAdapter.normalizeInput process_cwd raw = Returned n
    /\ OpencodeAdapter.platform n = lit "opencode"
    /\ OpencodeAdapter.sessionId n
       = nullish (js_get_opt raw "sessionId") (JStr (lit "unknown"))
    /\ OpencodeAdapter.cwd n
       = nullish (js_get_opt raw "cwd")
           (nullish (js_get_opt raw "directory") (JStr process_cwd))
    /\ is_nullish (OpencodeAdapter.cwd n) = false
    /\ OpencodeAdapter.prompt n = js_get_opt raw "prompt"
    /\ OpencodeAdapter.toolName n = js_get_opt raw "toolName"
    /\ OpencodeAdapter.toolInput n = js_get_opt raw "toolInput"
    /\ OpencodeAdapter.toolResponse n
       = nullish (js_get_opt raw "toolOutput") (js_get_opt raw "toolResponse")
    /\ OpencodeAdapter.transcriptPath n = JUndefined
    /\ (raw = JObj [] ->
        n = {| OpencodeAdapter.sessionId := JStr (lit "unknown");
               OpencodeAdapter.cwd := JStr process_cwd;
               OpencodeAdapter.platform := lit "opencode";
               OpencodeAdapter.prompt := JUndefined;
               OpencodeAdapter.toolName := JUndefined;
               OpencodeAdapter.toolInput := JUndefined;
               OpencodeAdapter.toolResponse := JUndefined;
               OpencodeAdapter.transcriptPath := JUndefined |}).
Proof.
  intros H. unfold OpencodeAdapter.normalizeInput.
  rewrite !(fun key => @js_get_defined raw key H). cbn [OpencodeAdapter.and_then].
  eexists. split; [reflexivity|]. cbn.
  repeat split.
  - apply nullish_defined, nullish_defined. reflexivity.
  - intros E. subst raw. reflexivity.
Qed.

(* ------------------------------------------------------------------ *)
(** ** The properties at work on concrete runs *)

(** C1, as first stated, fails: against a worker that passes the liveness
    check and answers [sessions/init] with a 500, two chat-message events
    issue two POSTs to [sessions/init] (the failed first attempt is tried
    again); and with no worker at all they issue none. *)
Lemma init_retried_after_failure :
  count_init_posts
    (events (run_calls demo_cfg worker_failing
               (chat_calls [(hello, JUndefined); (hello, JUndefined)]) fresh))
  = 2%nat
  /\ count_init_posts
       (events (run_calls demo_cfg worker_down
                  (chat_calls [(hello, JUndefined); (hello, JUndefined)]) fresh))
     = 0%nat.
Proof. split; vm_compute; reflexivity. Qed.

(** C2, as first stated, fails: on a fresh plugin each of the two hooks
    issues one request, the readiness probe. *)
Lemma uninitialized_hook_still_probes :
  trace (run worker_up (tool_execute_after demo_cfg hello JNull) initial_state [])
  = [EvFetch (readiness_request demo_cfg)]
  /\ count_fetches
       (trace (run worker_up (tool_execute_after demo_cfg hello JNull) initial_state []))
     = 1%nat
  /\ count_fetches
       (trace (run worker_up
                 (experimental_session_compacting demo_cfg hello JNull)
                 initial_state []))
     = 1%nat.
Proof. repeat split; vm_compute; reflexivity. Qed.

Lemma uninitialized_hooks_only_probe_witness :
  sessionInitialized initial_state = false
  /\ run worker_up (tool_execute_after demo_cfg hello JNull) initial_state []
     = mkResult (Returned tt) initial_state [EvFetch (readiness_request demo_cfg)]
  /\ run worker_up (experimental_session_compacting demo_cfg hello JNull)
       initial_state []
     = mkResult (Returned tt) initial_state [EvFetch (readiness_request demo_cfg)].
Proof.
  split; [reflexivity|].
  destruct (uninitialized_hooks_only_probe demo_cfg worker_up hello JNull
              initial_state [] eq_refl) as (Ht & Hc & _).
  split; [exact Ht|exact Hc].
Defined.

(** C3, as first stated, fails: [normalizeInput] raises a [TypeError] on
    [null] and on [undefined], and a [null] sent by the host for [prompt]
    comes out as [null]. *)
Lemma normalizeInput_raises_on_null :
  OpencodeAdapter.normalizeInput (lit "/srv/app") JNull
  = Threw (TypeError "Cannot read properties of undefined or null")
  /\ OpencodeAdapter.normalizeInput (lit "/srv/app") JUndefined
     = Threw (TypeError "Cannot read properties of undefined or null")
  /\ exists n,
       OpencodeAdapter.normalizeInput (lit "/srv/app") (JObj [(lit "prompt", JNull)])
       = Returned n
       /\ OpencodeAdapter.prompt n = JNull.
Proof.
  split; [reflexivity|]. split; [reflexivity|].
  eexists. split; reflexivity.
Qed.

Lemma normalizeInput_on_objects_witness :
  is_nullish (JObj []) = false
  /\ exists n,
       OpencodeAdapter.normalizeInput (lit "/srv/app") (JObj []) = Returned n
       /\ OpencodeAdapter.platform n = lit "opencode"
       /\ OpencodeAdapter.cwd n = JStr (lit "/srv/app")
       /\ OpencodeAdapter.prompt n = JUndefined.
Proof.
  split; [reflexivity|].
  destruct (@normalizeInput_on_objects (lit "/srv/app") (JObj []) eq_refl)
    as (n & En & Hp & _ & Hc & _ & Hpr & _).
  exists n. repeat split; assumption.
Defined.

Lemma context_injection_guard_witness :
  alive demo_cfg worker_up [] = true
  /\ whitespace_only (lit "## Recent work") = false
  /\ exists output',
       completion (run worker_up
                     (experimental_chat_system_transform demo_cfg JNull system_output)
                     initial_state [])
       = Returned output'
       /\ assoc (lit "system") output'
          = Some (JStr (lit "You are a coding agent." ++ [10%N; 10%N]
                        ++ lit "## Recent work")).
Proof.
  split; [reflexivity|]. split; [reflexivity|].
  destruct (@context_injection_guard demo_cfg worker_up JNull system_output
              initial_state [] (lit "demo")
              {| resp_status := 200;
                 resp_text := Returned (lit "## Recent work");
                 resp_json := Returned (JObj [(lit "sessionDbId", JNum 7)]) |}
              (lit "## Recent work")
              eq_refl eq_refl eq_refl eq_refl eq_refl) as [_ H].
  destruct (H eq_refl) as (output' & E & Hs & _).
  exists output'. split; [exact E|]. apply Hs. reflexivity.
Defined.

Lemma compaction_forwards_last_assistant_witness :
  conversation
  = [msg "user" "q1"; msg "assistant" "A"; msg "user" "q2"] ++ msg "assistant" "B" :: []
  /\ exists more,
       trace (run worker_up
                (experimental_session_compacting demo_cfg
                   (JObj [(lit "messages", JArr conversation)]) JUndefined)
                initialized_state [])
       = [] ++ [EvFetch (readiness_request demo_cfg);
                EvFetch (post_json demo_cfg "/api/sessions/summarize"
                           (JObj [ (lit "contentSessionId", JStr (sessionId demo_cfg));
                                   (lit "last_assistant_message", JStr (lit "B")) ]))]
            ++ more
       /\ count_fetches more = 0%nat.
Proof.
  split; [reflexivity|].
  destruct (@compaction_forwards_last_assistant demo_cfg worker_up
              (JObj [(lit "messages", JArr conversation)]) JUndefined
              [msg "user" "q1"; msg "assistant" "A"; msg "user" "q2"] []
              (msg "assistant" "B") initialized_state [])
    as (more & Et & Hc & _).
  - reflexivity.
  - reflexivity.
  - reflexivity.
  - repeat constructor.
  - reflexivity.
  - constructor.
  - exists more. split; [exact Et|exact Hc].
Defined.

Lemma sessionDbId_never_read_witness :
  sessionInitialized (vars fresh) = sessionInitialized (vars fresh_with_other_id)
  /\ seen (run_calls demo_cfg worker_up busy_day fresh)
     = seen (run_calls demo_cfg worker_up busy_day fresh_with_other_id)
  /\ events (run_calls demo_cfg worker_up busy_day fresh)
     = events (run_calls demo_cfg worker_up busy_day fresh_with_other_id)
  /\ Forall (carries_sessionId demo_cfg)
       (events (run_calls demo_cfg worker_up busy_day fresh)).
Proof.
  split; [reflexivity|].
  destruct (@sessionDbId_never_read demo_cfg worker_up busy_day fresh
              fresh_with_other_id eq_refl eq_refl eq_refl) as (Hs & He & _ & Hc).
  split; [exact Hs|]. split; [exact He|]. apply Hc. constructor.
Defined.

(* ------------------------------------------------------------------ *)
(** * Further properties of the plugin *)

(** ** Failure containment *)

Section Containment.

Variable cfg : Config.
Variable o : Oracle.

Lemma run_handle_completion (c : HostCall) (st : PluginState) (tr : list Event) :
  completion (run o (handle cfg c) st tr)
  = match c with
    | ChatMessage input output =>
        match completion (run o (chat_message cfg input output) st tr) with
        | Returned _ => Returned HookDone
        | Threw e => Threw e
        end
    | ToolExecuteAfter input toolOutput =>
        match completion (run o (tool_execute_after cfg input toolOutput) st tr) with
        | Returned _ => Returned HookDone
        | Threw e => Threw e
        end
    | SystemTransform input output =>
        match completion
                (run o (experimental_chat_system_transform cfg input output) st tr) with
        | Returned output' => Returned (SystemOutput output')
        | Threw e => Threw e
        end
    | SessionCompacting input output =>
        match completion (run o (experimental_session_compacting cfg input output) st tr) with
        | Returned _ => Returned HookDone
        | Threw e => Threw e
        end
    | ToolCall t params =>
        match completion (run o (tool_execute cfg t params) st tr) with
        | Returned v => Returned (ToolResult v)
        | Threw e => Threw e
        end
    end.
Proof.
  destruct c; cbn [handle]; rewrite run_bind;
    match goal with
    | |- context [match completion ?r with Returned _ => _ | Threw _ => _ end] =>
        destruct (completion r)
    end; reflexivity.
Qed.

Ltac settle :=
  repeat first
    [ progress cbn [completion state trace negb]
    | match goal with
      | |- context [if negb ?b then _ else _] => destruct b
      | |- context [if ?b then _ else _] => destruct b
      | |- context [match ?x with Returned _ => _ | Threw _ => _ end] =>
          lazymatch x with
          | completion _ => fail
          | _ => destruct x
          end
      end ].

(** X1. No hook and no tool ever throws into the host: whatever the input,
    the session state and the worker's behaviour, the promise of every call
    resolves. *)
Theorem every_call_resolves (c : HostCall) (st : PluginState) (tr : list Event) :
  exists v, completion (run o (handle cfg c) st tr) = Returned v.
Proof.
  rewrite run_handle_completion.
  destruct c as [input output|input toolOutput|input output|input output|t params].
  - rewrite run_chat_message. cbv zeta. settle; eexists; reflexivity.
  - rewrite run_tool_execute_after. cbv zeta. settle; eexists; reflexivity.
  - rewrite run_system_transform. cbv zeta. settle; eexists; reflexivity.
  - rewrite run_session_compacting. cbv zeta. settle; eexists; reflexivity.
  - rewrite run_tool_execute. cbv zeta. settle; eexists; reflexivity.
Qed.

Lemma count_fetches_log (m : jstring) (e : Thrown) : count_fetches [EvLog m e] = 0%nat.
Proof. reflexivity. Qed.

Lemma count_fetches_one (r : Request) : count_fetches [EvFetch r] = 1%nat.
Proof. reflexivity. Qed.

Ltac after_probe :=
  unfold probed; cbn [trace]; rewrite <- ?app_assoc; cbn [app];
  eexists; split; [reflexivity|];
  cbn [count_fetches filter is_fetch List.length]; lia.

(** X2. The liveness gate comes first: every call of a hook or a tool
    issues the readiness probe before anything else, and after it at most
    one more request. *)
Theorem probe_precedes_dispatch (c : HostCall) (st : PluginState) (tr : list Event) :
  exists more,
    trace (run o (handle cfg c) st tr) = tr ++ EvFetch (readiness_request cfg) :: more
    /\ (count_fetches more <= 1)%nat.
Proof.
  destruct (run_handle cfg o c st tr) as [_ Et]. rewrite Et. clear Et.
  destruct c as [input output|input toolOutput|input output|input output|t params].
  - rewrite run_chat_message. cbv zeta. settle; after_probe.
  - rewrite run_tool_execute_after. cbv zeta. settle; after_probe.
  - rewrite run_system_transform. cbv zeta. settle; after_probe.
  - rewrite run_session_compacting. cbv zeta. settle; after_probe.
  - rewrite run_tool_execute. cbv zeta. settle; after_probe.
Qed.

(** X3. With the worker down (the readiness probe rejects, times out or is
    answered with a non-success status) every call stops at the probe:
    nothing else is requested, nothing is logged, the session state is
    unchanged; a hook resolves with the host's output object untouched and a
    tool resolves to [{ error: 'Worker service unavailable' }]. *)
Theorem worker_down_is_silent (c : HostCall) (st : PluginState) (tr : list Event) :
  alive cfg o tr = false ->
  run o (handle cfg c) st tr
  = mkResult (Returned (unavailable c)) st (tr ++ [EvFetch (readiness_request cfg)]).
Proof.
  intros Ha.
  destruct (run_handle cfg o c st tr) as [Es Et].
  pose proof (run_handle_completion c st tr) as Ec.
  destruct (run o (handle cfg c) st tr) as [comp st' tr'].
  cbn [completion state trace] in Es, Et, Ec. subst comp st' tr'.
  destruct c as [input output|input toolOutput|input output|input output|t params].
  - rewrite run_chat_message, Ha. reflexivity.
  - rewrite run_tool_execute_after, Ha. reflexivity.
  - rewrite run_system_transform, Ha. reflexivity.
  - rewrite run_session_compacting, Ha. reflexivity.
  - rewrite run_tool_execute, Ha. reflexivity.
Qed.

End Containment.

Lemma worker_down_is_silent_witness :
  alive demo_cfg worker_down [] = false
  /\ run worker_down (handle demo_cfg (SystemTransform JNull system_output))
       initial_state []
     = mkResult (Returned (SystemOutput system_output)) initial_state
         [EvFetch (readiness_request demo_cfg)].
Proof.
  split; [reflexivity|].
  exact (@worker_down_is_silent demo_cfg worker_down
           (SystemTransform JNull system_output) initial_state [] eq_refl).
Defined.

(* ------------------------------------------------------------------ *)
(** ** The session hooks *)

Section SessionHooks.

Variable cfg : Config.
Variable o : Oracle.

Lemma nullish_left_defined (a b : JsValue) :
  is_nullish a = false -> nullish a b = a.
Proof. intros H. unfold nullish. now rewrite H. Qed.

(** X4. The body of the [sessions/init] request has exactly the three
    fields [contentSessionId], [project] and [prompt]; [project] and
    [prompt] are never [undefined] or [null]; the prompt is the empty string
    for an input that is not an object, and the input's [content] when that
    is a string. *)
Theorem init_body_is_defined (input : JsValue) :
  exists name prompt,
    req_body (init_request cfg input)
    = Some (JObj [ (lit "contentSessionId", JStr (sessionId cfg));
                   (lit "project", name);
                   (lit "prompt", prompt) ])
    /\ is_nullish name = false
    /\ is_nullish prompt = false
    /\ (typeof_object input = false -> prompt = JStr [])
    /\ (forall s, js_get input "content" = Returned (JStr s) -> prompt = JStr s).
Proof.
  unfold init_request, post_json. cbn [req_body]. eexists. eexists.
  split; [reflexivity|]. split; [apply nullish_defined; reflexivity|].
  split; [|split].
  - destruct (typeof_object input && negb (is_null input))%bool;
      [apply nullish_defined|]; reflexivity.
  - intros H. rewrite H. reflexivity.
  - intros s Hs. destruct input; try discriminate Hs; cbn [typeof_object is_null negb andb];
      try (simpl in Hs; discriminate Hs).
    unfold js_get_opt. rewrite Hs. reflexivity.
Qed.

(** X5. On an uninitialized session a chat-message event initializes the
    session exactly when the liveness check passes, [sessions/init] is
    answered with a success status and the body decodes to something other
    than [null] or [undefined].  A success status alone is not enough: with
    a body that fails to decode the flag stays [false]. *)
Theorem chat_message_initializes_iff
  (input output : JsValue) (st : PluginState) (tr : list Event) :
  sessionInitialized st = false ->
  (sessionInitialized (state (run o (chat_message cfg input output) st tr)) = true
   <-> alive cfg o tr = true
       /\ exists response result,
            answer cfg o tr (init_request cfg input) = Returned response
            /\ ok response = true
            /\ resp_json response = Returned result
            /\ is_nullish result = false).
Proof.
  intros Hi. rewrite run_chat_message, Hi. cbv zeta.
  destruct (alive cfg o tr); cbn [negb state].
  2:{ rewrite Hi. split; [discriminate|]. intros [F _]. discriminate F. }
  destruct (answer cfg o tr (init_request cfg input)) as [response|e].
  2:{ cbn [state]. rewrite Hi. split; [discriminate|].
      intros [_ (r & j & F & _)]. discriminate F. }
  destruct (ok response) eqn:Hok.
  2:{ cbn [state]. rewrite Hi. split; [discriminate|].
      intros [_ (r & j & F & Hr & _)]. inversion F; subst. congruence. }
  destruct (resp_json response) as [result|e] eqn:Hj.
  2:{ cbn [state]. rewrite Hi. split; [discriminate|].
      intros [_ (r & j & F & _ & Hr & _)]. inversion F; subst. congruence. }
  destruct (js_get result "sessionDbId") as [dbid|e] eqn:Hd; cbn [state].
  - split; [|reflexivity]. intros _. split; [reflexivity|].
    exists response, result. repeat split; auto.
    destruct result; try reflexivity; discriminate Hd.
  - rewrite Hi. split; [discriminate|].
    intros [_ (r & j & F & _ & Hr & Hn)].
    assert (Er : r = response) by congruence. subst r.
    assert (Ej : j = result) by congruence. subst j.
    rewrite (@js_get_defined result "sessionDbId" Hn) in Hd. discriminate Hd.
Qed.

(** X6. On an initialized session with the worker alive, a tool-execution
    event whose input is not [null] or [undefined] is forwarded to
    [sessions/observations] with the session id, a tool name that is never
    [undefined] or [null] (['unknown'] when the input names none), the tool
    output as it is and the plugin's directory.  The answer is not looked
    at: whatever status the worker returns, the hook ends there without a
    log line; only a rejected request is logged. *)
Theorem observation_forwarded_status_ignored
  (input toolOutput : JsValue) (st : PluginState) (tr : list Event) :
  sessionInitialized st = true ->
  alive cfg o tr = true ->
  is_nullish input = false ->
  exists body more,
    trace (run o (tool_execute_after cfg input toolOutput) st tr)
    = probed cfg tr ++ EvFetch (post_json cfg "/api/sessions/observations" body) :: more
    /\ js_get body "contentSessionId" = Returned (JStr (sessionId cfg))
    /\ js_get body "tool_response" = Returned toolOutput
    /\ js_get body "cwd" = Returned (directory cfg)
    /\ js_get body "tool_input"
       = Returned (js_get_opt (js_get_opt input "tool") "input")
    /\ (exists name, js_get body "tool_name" = Returned name /\ is_nullish name = false)
    /\ (js_get_opt (js_get_opt input "tool") "name" = JUndefined ->
        js_get body "tool_name" = Returned (JStr (lit "unknown")))
    /\ (forall response,
          answer cfg o tr (post_json cfg "/api/sessions/observations" body)
          = Returned response -> more = [])
    /\ (forall e,
          answer cfg o tr (post_json cfg "/api/sessions/observations" body) = Threw e ->
          more = [EvLog (lit "claude-mem: observation capture failed") e]).
Proof.
  intros Hi Ha Hn. rewrite run_tool_execute_after, Ha, Hi. cbv zeta. cbn [negb].
  rewrite (@js_get_defined input "tool" Hn).
  exists (observation_body cfg (js_get_opt input "tool") toolOutput).
  destruct (answer cfg o tr _) as [response|e] eqn:Hr; cbn [trace].
  - exists []. split; [reflexivity|]. repeat split; try reflexivity.
    + eexists. split; [reflexivity|]. apply nullish_defined. reflexivity.
    + intros H. cbn. rewrite H. reflexivity.
    + intros e F. discriminate F.
  - exists [EvLog (lit "claude-mem: observation capture failed") e].
    split; [rewrite <- app_assoc; reflexivity|]. repeat split; try reflexivity.
    + eexists. split; [reflexivity|]. apply nullish_defined. reflexivity.
    + intros H. cbn. rewrite H. reflexivity.
    + intros response F. discriminate F.
    + intros e' F. inversion F. reflexivity.
Qed.

(** X7. On an initialized session with the worker alive, an event whose
    input is [null] or [undefined] is never dispatched: the tool-execution
    and the compaction hook each issue the readiness probe alone and write
    one log line. *)
Theorem null_event_is_logged_not_sent
  (input other : JsValue) (st : PluginState) (tr : list Event) :
  sessionInitialized st = true ->
  alive cfg o tr = true ->
  is_nullish input = true ->
  (exists e,
     run o (tool_execute_after cfg input other) st tr
     = mkResult (Returned tt) st
         (probed cfg tr ++ [EvLog (lit "claude-mem: observation capture failed") e]))
  /\ (exists e,
        run o (experimental_session_compacting cfg input other) st tr
        = mkResult (Returned tt) st
            (probed cfg tr ++ [EvLog (lit "claude-mem: summarization failed") e])).
Proof.
  intros Hi Ha Hn.
  rewrite run_tool_execute_after, run_session_compacting, Ha, Hi. cbv zeta. cbn [negb].
  unfold lastAssistantMessage.
  destruct input; try discriminate Hn; cbn [js_get]; split; eexists; reflexivity.
Qed.

End SessionHooks.

(* ------------------------------------------------------------------ *)
(** ** Context injection *)

Lemma set_prop_names_present (key : jstring) (x v : JsValue)
  (props : list (jstring * JsValue)) :
  assoc key props = Some v -> map fst (set_prop key x props) = map fst props.
Proof.
  induction props as [|[k w] rest IH]; simpl; [discriminate|].
  destruct (jstring_eqb k key); simpl; [reflexivity|].
  intros H. now rewrite IH.
Qed.

Lemma set_prop_names_absent (key : jstring) (x : JsValue)
  (props : list (jstring * JsValue)) :
  assoc key props = None -> map fst (set_prop key x props) = map fst props ++ [key].
Proof.
  induction props as [|[k w] rest IH]; simpl; [reflexivity|].
  destruct (jstring_eqb k key); simpl; [discriminate|].
  intros H. now rewrite IH.
Qed.

Lemma js_get_opt_object (props : list (jstring * JsValue)) (key : string) :
  js_get_opt (JObj props) key
  = match assoc (lit key) props with Some x => x | None => JUndefined end.
Proof. unfold js_get_opt, js_get. destruct (assoc (lit key) props); reflexivity. Qed.

(** What the right-hand side of the assignment evaluates to. *)
Lemma system_text_cases (output : list (jstring * JsValue)) (context : jstring) :
  let old := nullish (js_get_opt (JObj output) "system") (JStr []) in
  (String_throws old = true
   /\ system_text output context
      = Threw (TypeError "Cannot convert object to primitive value"))
  \/ (String_throws old = false
      /\ system_text output context
         = Returned (js_String old ++ [10%N; 10%N] ++ context)).
Proof.
  intros old. unfold system_text, js_add_string, ToString. fold old.
  destruct (String_throws old); [left|right]; split; try reflexivity.
  unfold blank_line. now rewrite <- app_assoc.
Qed.

Lemma inject_context_names (output : list (jstring * JsValue)) (context : jstring) :
  map fst (inject_context output context)
  = match assoc (lit "system") output with
    | Some _ => map fst output
    | None => map fst output ++ [lit "system"]
    end.
Proof.
  unfold inject_context.
  destruct (system_text output context) as [text|e] eqn:Hx.
  - destruct (assoc (lit "system") output) as [v|] eqn:E.
    + apply set_prop_names_present with (v := v). exact E.
    + apply set_prop_names_absent. exact E.
  - destruct (assoc (lit "system") output) as [v|] eqn:E; [reflexivity|].
    rewrite (system_text_absent output context E) in Hx. discriminate Hx.
Qed.

(** X8. Injecting a context keeps the shape of the host's output object: its
    properties stay in place, with one [system] property added last when
    there was none.  When the content of [system] converts to a string,
    [system] is afterwards a string that ends with ['\n\n'] and the
    context; when it does not (an object with an own [toString] property, or
    an array that holds one), the assignment throws and the object is left
    exactly as it was. *)
Theorem injection_keeps_shape (output : list (jstring * JsValue)) (context : jstring) :
  let old := nullish (js_get_opt (JObj output) "system") (JStr []) in
  map fst (inject_context output context)
  = match assoc (lit "system") output with
    | Some _ => map fst output
    | None => map fst output ++ [lit "system"]
    end
  /\ (String_throws old = false ->
      exists before,
        assoc (lit "system") (inject_context output context)
        = Some (JStr (before ++ [10%N; 10%N] ++ context)))
  /\ (String_throws old = true ->
      (exists e, system_text output context = Threw e)
      /\ inject_context output context = output).
Proof.
  intros old. split; [apply inject_context_names|].
  unfold inject_context.
  destruct (system_text_cases output context) as [[Ht Hx]|[Ht Hx]];
    fold old in Ht; rewrite Hx, Ht.
  - split; [discriminate|]. intros _. split; [eexists|]; reflexivity.
  - split; [|discriminate]. intros _. eexists. now rewrite assoc_set_prop_same.
Qed.

(** X9. The hook does not recognise what it injected earlier: injecting a
    second context appends again, so a [system] content [s] becomes [s],
    ['\n\n'], the first context, ['\n\n'], the second context, and the
    second injection adds no property. *)
Theorem injection_accumulates
  (output : list (jstring * JsValue)) (first second : jstring) :
  let once := inject_context output first in
  let twice := inject_context once second in
  map fst twice = map fst once
  /\ (forall s, assoc (lit "system") output = Some (JStr s) ->
                assoc (lit "system") twice
                = Some (JStr (s ++ [10%N; 10%N] ++ first ++ [10%N; 10%N] ++ second)))
  /\ (assoc (lit "system") output = None ->
      assoc (lit "system") twice
      = Some (JStr ([10%N; 10%N] ++ first ++ [10%N; 10%N] ++ second))).
Proof.
  intros once twice. subst once twice. split; [|split].
  - rewrite (inject_context_names (inject_context output first) second).
    unfold inject_context at 1.
    destruct (system_text output first) as [text|e] eqn:Hx.
    + now rewrite assoc_set_prop_same.
    + destruct (assoc (lit "system") output) as [v|] eqn:E; [reflexivity|].
      rewrite (system_text_absent output first E) in Hx. discriminate Hx.
  - intros s Hs. unfold inject_context at 2.
    rewrite (system_text_string output first Hs).
    unfold inject_context.
    rewrite (@system_text_string _ second (s ++ [10%N; 10%N] ++ first))
      by apply assoc_set_prop_same.
    rewrite assoc_set_prop_same, <- !app_assoc. reflexivity.
  - intros Hs. unfold inject_context at 2.
    rewrite (system_text_absent output first Hs).
    unfold inject_context.
    rewrite (@system_text_string _ second ([10%N; 10%N] ++ first))
      by apply assoc_set_prop_same.
    rewrite assoc_set_prop_same. reflexivity.
Qed.

Section Injection.

Variable cfg : Config.
Variable o : Oracle.

(** X10. The context-injection hook never touches the session state, and
    it hands the host's output object back unchanged unless the worker was
    alive, answered the [context/inject] request with a success status and a
    readable text that is not white space only; then, and only then, the
    output is the one with that text injected. *)
Theorem transform_changes_only_on_context
  (input : JsValue) (output : list (jstring * JsValue)) (st : PluginState)
  (tr : list Event) :
  let r := run o (experimental_chat_system_transform cfg input output) st tr in
  state r = st
  /\ (completion r = Returned output
      \/ exists encoded response context,
           alive cfg o tr = true
           /\ answer cfg o tr
                (get_query cfg "/api/context/inject" [(lit "projects", encoded)])
              = Returned response
           /\ ok response = true
           /\ resp_text response = Returned context
           /\ whitespace_only context = false
           /\ completion r = Returned (inject_context output context)).
Proof.
  intros r. subst r. rewrite run_system_transform. cbv zeta.
  destruct (alive cfg o tr); cbn [negb]; [|split; [reflexivity|now left]].
  destruct (encodeURIComponent _) as [encoded|e]; [|split; [reflexivity|now left]].
  destruct (answer cfg o tr _) as [response|e] eqn:Hr; [|split; [reflexivity|now left]].
  destruct (ok response) eqn:Hok; [|split; [reflexivity|now left]].
  destruct (resp_text response) as [context|e] eqn:Ht; [|split; [reflexivity|now left]].
  rewrite trim_truthy.
  destruct (whitespace_only context) eqn:W; cbn [negb];
    [split; [reflexivity|now left]|].
  destruct (system_text output context) as [text|e] eqn:Hx;
    [|split; [reflexivity|now left]].
  split; [reflexivity|]. cbn [completion].
  right. exists encoded, response, context. repeat split; auto.
  unfold inject_context. now rewrite Hx.
Qed.

End Injection.

(* ------------------------------------------------------------------ *)
(** ** The message forwarded on compaction *)

Lemma filter_assistant_only (messages kept : list JsValue) :
  filter_assistant messages = Returned kept ->
  Forall (fun m => is_nullish m = false) messages
  /\ kept = filter is_assistant messages.
Proof.
  revert kept. induction messages as [|m rest IH]; simpl; intros kept H.
  - inversion H. split; constructor.
  - destruct (js_get m "role") as [role|e] eqn:Hrole; [|discriminate].
    destruct (filter_assistant rest) as [kept'|e]; [|discriminate].
    destruct (IH kept' eq_refl) as [Hall Hk].
    assert (Hm : is_nullish m = false) by (destruct m; try reflexivity; discriminate).
    split; [constructor; assumption|].
    inversion H. subst kept'. unfold is_assistant at 1.
    rewrite (@js_get_defined m "role" Hm) in Hrole. inversion Hrole. reflexivity.
Qed.

Lemma pop_filtered (l : list JsValue) :
  l = [] \/ (In (pop l) l).
Proof.
  unfold pop. induction l as [|x [|y rest] IH]; [now left|right; now left|].
  right. destruct IH as [F|IH]; [discriminate|]. right. exact IH.
Qed.

(** X11. The value forwarded as [last_assistant_message] is never
    [undefined] or [null]: it is the empty string, or the content of a
    message of the list whose role is ['assistant']. *)
Theorem forwarded_message_is_defined (input v : JsValue) :
  lastAssistantMessage input = Returned v ->
  is_nullish v = false
  /\ (v = JStr []
      \/ exists messages m,
           js_get input "messages" = Returned (JArr messages)
           /\ In m messages
           /\ is_assistant m = true
           /\ js_get_opt m "content" = v).
Proof.
  unfold lastAssistantMessage.
  destruct (js_get input "messages") as [found|e] eqn:Hin; [|discriminate].
  destruct (nullish found (JArr [])) as [| | | | |messages|] eqn:Hm; try discriminate.
  destruct (filter_assistant messages) as [kept|e] eqn:Hk; [|discriminate].
  intros H. inversion H as [Hv]. clear H.
  split; [apply nullish_defined; reflexivity|].
  destruct (is_nullish (js_get_opt (pop kept) "content")) eqn:Hc.
  - left. unfold nullish. now rewrite Hc.
  - right. destruct (filter_assistant_only _ Hk) as [_ Ek].
    destruct (pop_filtered kept) as [E|Hp].
    { rewrite E in Hc. discriminate Hc. }
    assert (Hin' : In (pop kept) (filter is_assistant messages))
      by (rewrite <- Ek; exact Hp).
    apply filter_In in Hin'. destruct Hin' as [Hmem Ha].
    assert (Ef : found = JArr messages).
    { unfold nullish in Hm. destruct (is_nullish found) eqn:Hf; [|exact Hm].
      inversion Hm. subst messages. destruct Hmem. }
    exists messages, (pop kept).
    split; [now rewrite Ef|]. split; [exact Hmem|]. split; [exact Ha|].
    unfold nullish. now rewrite Hc.
Qed.

(** X12. A conversation without an assistant message forwards the empty
    string: so does an input (other than [null] and [undefined]) that has no
    [messages] at all, and so does a last assistant message that has no
    content. *)
Theorem no_assistant_forwards_empty (input : JsValue) (messages : list JsValue) :
  is_nullish input = false ->
  (is_nullish (js_get_opt input "messages") = true
   \/ (js_get_opt input "messages" = JArr messages
       /\ Forall (fun m => is_nullish m = false) messages
       /\ is_nullish (js_get_opt (pop (filter is_assistant messages)) "content") = true)) ->
  lastAssistantMessage input = Returned (JStr []).
Proof.
  intros Hn H. unfold lastAssistantMessage.
  rewrite (@js_get_defined input "messages" Hn).
  destruct H as [H|(Hm & Hall & Hc)].
  - unfold nullish at 1. rewrite H. reflexivity.
  - rewrite Hm. cbn [nullish is_nullish].
    rewrite (filter_assistant_filter Hall). unfold nullish. rewrite Hc. reflexivity.
Qed.

(** X13. Reading the last assistant message fails exactly in three cases:
    the input is [null] or [undefined]; its [messages] is something other
    than an array, [null] or [undefined]; or one of the messages is [null]
    or [undefined]. *)
Theorem last_assistant_throws_iff (input : JsValue) :
  (exists e, lastAssistantMessage input = Threw e)
  <-> is_nullish input = true
      \/ (is_nullish input = false
          /\ is_nullish (js_get_opt input "messages") = false
          /\ forall messages, js_get_opt input "messages" <> JArr messages)
      \/ (exists messages,
            js_get_opt input "messages" = JArr messages
            /\ Exists (fun m => is_nullish m = true) messages).
Proof.
  unfold lastAssistantMessage.
  destruct (is_nullish input) eqn:Hn.
  { split; [now left|]. intros _.
    destruct input; try discriminate Hn; eexists; reflexivity. }
  rewrite (@js_get_defined input "messages" Hn).
  set (found := js_get_opt input "messages").
  assert (Hf : forall messages,
             (exists e, filter_assistant messages = Threw e)
             <-> Exists (fun m => is_nullish m = true) messages).
  { induction messages as [|m rest IH]; simpl.
    - split; [intros [e F]; discriminate|intros F; inversion F].
    - destruct (is_nullish m) eqn:Hm.
      + split; [intros _; now left|]. intros _.
        destruct m; try discriminate Hm; eexists; reflexivity.
      + rewrite (@js_get_defined m "role" Hm).
        destruct (filter_assistant rest) as [kept|e].
        * split; [intros [e F]; discriminate|].
          intros F. inversion F as [? ? Hx|? ? Hx]; subst; [congruence|].
          apply IH in Hx. destruct Hx as [e F']. discriminate.
        * split; [|intros _; eexists; reflexivity].
          intros _. right. apply IH. eexists. reflexivity. }
  destruct found as [| | | | |messages|] eqn:Ef; cbn [nullish is_nullish].
  - split; [intros [e F]; discriminate|].
    intros [F|[(_ & F & _)|(l & F & H)]]; try discriminate.
  - split; [intros [e F]; discriminate|].
    intros [F|[(_ & F & _)|(l & F & H)]]; try discriminate.
  - split; [|intros _; eexists; reflexivity].
    intros _. right. left. repeat split. intros l. discriminate.
  - split; [|intros _; eexists; reflexivity].
    intros _. right. left. repeat split. intros l. discriminate.
  - split; [|intros _; eexists; reflexivity].
    intros _. right. left. repeat split. intros l. discriminate.
  - destruct (filter_assistant messages) as [kept|e] eqn:Hk.
    + split; [intros [e F]; discriminate|].
      intros [F|[(_ & _ & F)|(l & F & H)]]; try discriminate.
      * now elim (F messages).
      * inversion F. subst l. apply Hf in H. destruct H as [e F']. congruence.
    + split; [|intros _; eexists; reflexivity].
      intros _. right. right. exists messages. split; [reflexivity|].
      apply Hf. eexists. exact Hk.
  - split; [|intros _; eexists; reflexivity].
    intros _. right. left. repeat split. intros l. discriminate.
Qed.

(* ------------------------------------------------------------------ *)
(** ** The query string of the search and timeline tools *)

Lemma usp_set_names (key value : jstring) (q : list (jstring * jstring)) (k : jstring) :
  In k (map fst (usp_set key value q)) -> k = key \/ In k (map fst q).
Proof.
  induction q as [|[k' v'] rest IH]; simpl.
  - intros [H|[]]. now left.
  - destruct (jstring_eqb k' key) eqn:E; simpl.
    + intros [H|H]; [right; now left|].
      apply in_map_iff in H. destruct H as ([k2 v2] & Hk & Hin).
      apply filter_In in Hin. destruct Hin as [Hin _].
      right. right. apply in_map_iff. exists (k2, v2). auto.
    + intros [H|H]; [right; now left|].
      destruct (IH H) as [H'|H']; [now left|right; now right].
Qed.

Lemma usp_set_nodup (key value : jstring) (q : list (jstring * jstring)) :
  NoDup (map fst q) -> NoDup (map fst (usp_set key value q)).
Proof.
  induction q as [|[k v] rest IH]; simpl; intros H.
  - constructor; [intros []|constructor].
  - inversion H as [|? ? Hk Hrest]; subst.
    destruct (jstring_eqb k key) eqn:E; simpl.
    + constructor.
      * intros Hin. apply in_map_iff in Hin. destruct Hin as ([k2 v2] & Hk2 & Hin).
        apply filter_In in Hin. destruct Hin as [Hin _]. simpl in Hk2. subst k2.
        apply Hk. apply in_map_iff. exists (k, v2). auto.
      * clear - Hrest. induction rest as [|[k2 v2] rest IH]; simpl; [constructor|].
        inversion Hrest as [|? ? Hk2 Hr]; subst.
        destruct (negb (jstring_eqb k2 key)); simpl; [|auto].
        constructor; [|auto].
        intros Hin. apply Hk2. apply in_map_iff in Hin.
        destruct Hin as ([k3 v3] & Hk3 & Hin). apply filter_In in Hin.
        destruct Hin as [Hin _]. apply in_map_iff. exists (k3, v3). auto.
    + constructor; [|auto].
      intros Hin. apply usp_set_names in Hin. destruct Hin as [Hin|Hin]; [|auto].
      subst k. rewrite jstring_eqb_refl in E. discriminate.
Qed.

Lemma collect_params_nodup (entries : list (jstring * JsValue)) :
  forall q q',
    NoDup (map fst q) ->
    collect_params entries q = Returned q' ->
    NoDup (map fst q').
Proof.
  induction entries as [|[key value] rest IH]; simpl; intros q q' H E.
  - inversion E. subst q'. exact H.
  - destruct (negb (is_nullish value)); [|exact (IH q q' H E)].
    destruct (ToString value) as [text|e]; [|discriminate E].
    apply (IH _ q' (usp_set_nodup _ _ q H) E).
Qed.

Lemma collect_params_throws (entries : list (jstring * JsValue)) :
  forall q,
    (exists e, collect_params entries q = Threw e)
    <-> Exists (fun entry => unconvertible entry = true) entries.
Proof.
  induction entries as [|[key value] rest IH]; simpl; intros q.
  - split; [intros [e F]; discriminate F|intros F; inversion F].
  - unfold ToString.
    destruct (is_nullish value) eqn:Hn; cbn [negb].
    + rewrite IH. split; [intros H; now right|].
      intros H. inversion H as [? ? Hx|? ? Hx]; subst; [|exact Hx].
      unfold unconvertible, has_value in Hx. cbn [snd] in Hx.
      rewrite Hn in Hx. discriminate Hx.
    + destruct (String_throws value) eqn:Ht.
      * split; [|intros _; eexists; reflexivity].
        intros _. left. unfold unconvertible, has_value. cbn [snd].
        now rewrite Hn, Ht.
      * rewrite IH. split; [intros H; now right|].
        intros H. inversion H as [? ? Hx|? ? Hx]; subst; [|exact Hx].
        unfold unconvertible, has_value in Hx. cbn [snd] in Hx.
        rewrite Hn, Ht in Hx. discriminate Hx.
Qed.

Lemma usp_set_fresh (key value : jstring) (q : list (jstring * jstring)) :
  ~ In key (map fst q) -> usp_set key value q = q ++ [(key, value)].
Proof.
  induction q as [|[k v] rest IH]; simpl; intros H; [reflexivity|].
  destruct (jstring_eqb k key) eqn:E.
  - apply jstring_eqb_eq in E. subst k. elim H. now left.
  - rewrite IH; [reflexivity|]. intros Hin. apply H. now right.
Qed.

Lemma collect_params_distinct (entries : list (jstring * JsValue)) :
  forall q,
    NoDup (map fst q ++ map (fun e => to_USVString (fst e)) entries) ->
    Forall (fun e => String_throws (snd e) = false) entries ->
    collect_params entries q
    = Returned (q ++ map query_pair (filter has_value entries)).
Proof.
  induction entries as [|[key value] rest IH]; simpl; intros q H Hc.
  - now rewrite app_nil_r.
  - unfold has_value at 1. cbn [snd].
    inversion Hc as [|? ? Hv Hrestc]; subst. cbn [snd] in Hv.
    assert (Hfresh : ~ In (to_USVString key) (map fst q)).
    { intros Hin. apply NoDup_remove_2 in H. apply H. apply in_or_app. now left. }
    assert (Hrest : NoDup (map fst q ++ map (fun e => to_USVString (fst e)) rest)).
    { apply NoDup_remove_1 in H. exact H. }
    destruct (is_nullish value); cbn [negb].
    + apply IH; assumption.
    + unfold ToString. rewrite Hv.
      rewrite (@usp_set_fresh (to_USVString key) (to_USVString (js_String value)) q
                 Hfresh), IH.
      * rewrite <- app_assoc. reflexivity.
      * rewrite map_app, <- app_assoc. exact H.
      * exact Hrestc.
Qed.

Lemma to_USVString_well_formed_upto (n : nat) :
  forall s, (List.length s <= n)%nat ->
            well_formed_utf16 s = true -> to_USVString s = s.
Proof.
  induction n as [|n IH]; intros s Hlen Hwf.
  - destruct s; [reflexivity|simpl in Hlen; lia].
  - destruct s as [|c rest]; [reflexivity|]. simpl in Hlen, Hwf |- *.
    destruct (is_high_surrogate c).
    + destruct rest as [|d rest']; [discriminate|].
      apply andb_true_iff in Hwf. destruct Hwf as [Hd Hwf]. rewrite Hd.
      rewrite (IH rest'); [reflexivity| simpl in Hlen; lia | exact Hwf].
    + destruct (is_low_surrogate c); [discriminate|].
      rewrite (IH rest); [reflexivity| lia | exact Hwf].
Qed.

Lemma to_USVString_well_formed (s : jstring) :
  well_formed_utf16 s = true -> to_USVString s = s.
Proof. apply (to_USVString_well_formed_upto (n := List.length s)). lia. Qed.

Lemma names_well_formed (entries : list (jstring * JsValue)) :
  Forall (fun e => well_formed_utf16 (fst e) = true) entries ->
  map (fun e => to_USVString (fst e)) entries = map fst entries.
Proof.
  induction 1 as [|e rest Hk _ IH]; simpl; [reflexivity|].
  now rewrite (to_USVString_well_formed _ Hk), IH.
Qed.

Lemma query_pair_names (entries : list (jstring * JsValue)) :
  Forall (fun e => well_formed_utf16 (fst e) = true) entries ->
  map query_pair (filter has_value entries)
  = map (fun e => (fst e, to_USVString (js_String (snd e))))
      (filter has_value entries).
Proof.
  induction 1 as [|e rest Hk _ IH]; simpl; [reflexivity|].
  destruct (has_value e); simpl; [|exact IH].
  unfold query_pair at 1. now rewrite (to_USVString_well_formed _ Hk), IH.
Qed.

Lemma query_values_well_formed (entries : list (jstring * JsValue)) :
  Forall (fun e => well_formed_utf16 (js_String (snd e)) = true) entries ->
  map (fun e => (fst e, to_USVString (js_String (snd e)))) (filter has_value entries)
  = map (fun e => (fst e, js_String (snd e))) (filter has_value entries).
Proof.
  induction 1 as [|e rest Hv _ IH]; simpl; [reflexivity|].
  destruct (has_value e); simpl; [|exact IH].
  now rewrite (to_USVString_well_formed _ Hv), IH.
Qed.

Lemma Object_entries_throws (params : JsValue) :
  (Object_entries params
   = Threw (TypeError "Cannot convert undefined or null to object")
   /\ is_nullish params = true)
  \/ (exists entries, Object_entries params = Returned entries
                      /\ is_nullish params = false).
Proof.
  destruct params; cbn; try (left; split; reflexivity);
    right; eexists; split; reflexivity.
Qed.

Section QueryTools.

Variable cfg : Config.
Variable o : Oracle.

(** X14. The query of a search or timeline request never names a parameter
    twice, whatever the parameters are. *)
Theorem query_names_are_unique (t : ToolName) (params : JsValue) (req : Request) :
  tool_request cfg t params = Returned req ->
  NoDup (map fst (req_query req)).
Proof.
  destruct t; cbn [tool_request];
    try (destruct (Object_entries params) as [entries|e]; [|discriminate];
         destruct (collect_params entries []) as [searchParams|e] eqn:E;
         [|discriminate]);
    intros H; inversion H; subst; cbn [req_query get_query post_json];
    try (apply (collect_params_nodup entries [] (NoDup_nil _) E)); constructor.
Qed.

(** X15. For a parameter object whose names are distinct and free of lone
    surrogates and whose values all convert to a string (no own [toString]
    property, numbers below 2^53 in absolute value), the query of a search
    or timeline request lists, in the order of the object, exactly the
    parameters whose value is neither [undefined] nor [null], each under its
    own name with [String(value)]; a value without a lone surrogate arrives
    unchanged. *)
Theorem query_lists_defined_parameters
  (t : ToolName) (props : list (jstring * JsValue)) :
  t <> MemGetObservations ->
  NoDup (map fst props) ->
  Forall (fun e => well_formed_utf16 (fst e) = true) props ->
  Forall (fun e => String_throws (snd e) = false
                   /\ safe_numbers (snd e) = true) props ->
  exists req,
    tool_request cfg t (JObj props) = Returned req
    /\ req_method req = GET
    /\ req_body req = None
    /\ req_query req
       = map (fun e => (fst e, to_USVString (js_String (snd e))))
           (filter has_value props)
    /\ (Forall (fun e => well_formed_utf16 (js_String (snd e)) = true) props ->
        req_query req
        = map (fun e => (fst e, js_String (snd e))) (filter has_value props)).
Proof.
  intros Ht Hd Hk Hv.
  assert (E : collect_params props []
              = Returned (map (fun e => (fst e, to_USVString (js_String (snd e))))
                            (filter has_value props))).
  { rewrite <- (query_pair_names Hk).
    apply (@collect_params_distinct props []).
    - cbn [map app]. rewrite (names_well_formed Hk). exact Hd.
    - apply Forall_impl with (2 := Hv). intros e [H _]. exact H. }
  destruct t; [| |contradiction]; cbn [tool_request Object_entries]; rewrite E;
    eexists; (split; [reflexivity|]); cbn [req_method req_body req_query get_query];
    (split; [reflexivity|]); (split; [reflexivity|]); (split; [reflexivity|]);
    intros Hwf; apply query_values_well_formed, Hwf.
Qed.

(** X16. Building the request of a query tool fails for the search and
    timeline tools only, and exactly in two cases: the parameters are [null]
    or [undefined], or a parameter has a value that [String(value)] cannot
    convert (an object with an own [toString] property, or an array that
    holds one).  Those two tools then stop after the liveness check and
    resolve to an error object.  The batch tool, which reads nothing of its
    parameters, always builds its request and posts the parameters as the
    body, as they are. *)
Theorem request_building_fails_iff
  (t : ToolName) (params : JsValue) (st : PluginState) (tr : list Event) :
  ((exists e, tool_request cfg t params = Threw e)
   <-> t <> MemGetObservations
       /\ (is_nullish params = true
           \/ exists entries,
                Object_entries params = Returned entries
                /\ Exists (fun entry => unconvertible entry = true) entries))
  /\ (alive cfg o tr = true ->
      (exists e, tool_request cfg t params = Threw e) ->
      trace (run o (tool_execute cfg t params) st tr) = probed cfg tr
      /\ exists message,
           completion (run o (tool_execute cfg t params) st tr)
           = Returned (error_object (error_prefix t ++ message)))
  /\ (exists req,
        tool_request cfg MemGetObservations params = Returned req
        /\ req_method req = POST
        /\ req_body req = Some params
        /\ req_query req = []).
Proof.
  assert (Hsearch : forall path : string,
             (exists e,
                match Object_entries params with
                | Returned entries =>
                    match collect_params entries [] with
                    | Returned searchParams =>
                        Returned (get_query cfg path searchParams)
                    | Threw e => Threw e
                    end
                | Threw e => Threw e
                end = Threw e)
             <-> (is_nullish params = true
                  \/ exists entries,
                       Object_entries params = Returned entries
                       /\ Exists (fun entry => unconvertible entry = true) entries)).
  { intros path.
    destruct (Object_entries_throws params) as [[E Hn]|(entries & E & Hn)]; rewrite E.
    - split; [intros _; now left|intros _; eexists; reflexivity].
    - split.
      + intros [e F]. right. exists entries. split; [reflexivity|].
        apply (collect_params_throws entries []).
        destruct (collect_params entries []) as [q|e']; [discriminate F|].
        eexists. reflexivity.
      + intros [F|(entries' & E' & H)]; [congruence|].
        inversion E'. subst entries'.
        apply (collect_params_throws entries []) in H. destruct H as [e H].
        rewrite H. eexists. reflexivity. }
  split; [|split].
  - destruct t; cbn [tool_request].
    + rewrite (Hsearch "/api/search"%string).
      split; [intros H; split; [discriminate|exact H]|intros [_ H]; exact H].
    + rewrite (Hsearch "/api/timeline"%string).
      split; [intros H; split; [discriminate|exact H]|intros [_ H]; exact H].
    + split; [intros [e F]; discriminate F|intros [F _]; now elim F].
  - intros Ha [e He]. rewrite run_tool_execute, Ha. cbv zeta. cbn [negb].
    rewrite He. cbn [trace completion]. split; [reflexivity|eexists; reflexivity].
  - eexists. repeat split.
Qed.

End QueryTools.

(* ------------------------------------------------------------------ *)
(** ** The adapter's output side *)

(** X17. [formatOutput] raises only on a result that is [null] or
    [undefined].  On every other result it returns a truthy value: the
    additional context when the result carries a truthy one, and otherwise
    (no hook-specific output, no context, or an empty context string) the
    object [{ success }] whose flag is the result's [continue], [true] when
    that is absent. *)
Theorem formatOutput_shape (result : JsValue) :
  let context :=
    js_get_opt (js_get_opt result "hookSpecificOutput") "additionalContext" in
  ((exists e, OpencodeAdapter.formatOutput result = Threw e)
   <-> is_nullish result = true)
  /\ (is_nullish result = false ->
      exists v,
        OpencodeAdapter.formatOutput result = Returned v
        /\ js_truthy v = true
        /\ (js_truthy context = true -> v = context)
        /\ (js_truthy context = false ->
            v = JObj [(lit "success",
                       nullish (js_get_opt result "continue") (JBool true))])).
Proof.
  intros context. subst context. unfold OpencodeAdapter.formatOutput.
  destruct (is_nullish result) eqn:Hn.
  - split; [|intros F; discriminate F].
    split; [reflexivity|]. intros _.
    destruct result; try discriminate Hn; eexists; reflexivity.
  - rewrite !(fun key => @js_get_defined result key Hn).
    cbn [OpencodeAdapter.and_then].
    set (hso := js_get_opt result "hookSpecificOutput").
    destruct (js_truthy (js_get_opt hso "additionalContext")) eqn:Ht.
    + assert (Hh : is_nullish hso = false).
      { destruct hso; try reflexivity; discriminate Ht. }
      rewrite (@js_get_defined hso "additionalContext" Hh).
      split; [split; [intros [e F]; discriminate F|intros F; discriminate F]|].
      intros _. eexists. split; [reflexivity|].
      split; [exact Ht|]. split; [reflexivity|intros F; discriminate F].
    + split; [split; [intros [e F]; discriminate F|intros F; discriminate F]|].
      intros _. eexists. split; [reflexivity|].
      split; [reflexivity|]. split; [intros F; discriminate F|reflexivity].
Qed.

(** X18. [normalizeInput] reads eight properties of the raw input and
    nothing else: two inputs (neither [null] nor [undefined]) that agree on
    [sessionId], [cwd], [directory], [prompt], [toolName], [toolInput],
    [toolOutput] and [toolResponse] are normalized to the same value, so
    any other property the host sends is dropped. *)
Theorem normalizeInput_reads_eight_keys (process_cwd : jstring) (a b : JsValue) :
  is_nullish a = false ->
  is_nullish b = false ->
  Forall (fun key => js_get_opt a key = js_get_opt b key)
    ["sessionId"; "cwd"; "directory"; "prompt"; "toolName"; "toolInput";
     "toolOutput"; "toolResponse"]%string ->
  OpencodeAdapter.normalizeInput process_cwd a
  = OpencodeAdapter.normalizeInput process_cwd b.
Proof.
  intros Ha Hb H. unfold OpencodeAdapter.normalizeInput.
  rewrite !(fun key => @js_get_defined a key Ha).
  rewrite !(fun key => @js_get_defined b key Hb).
  repeat match goal with
         | H : Forall _ (_ :: _) |- _ =>
             let E := fresh "E" in
             inversion H as [|? ? E ?]; clear H; subst; rewrite E
         end.
  reflexivity.
Qed.

(* ------------------------------------------------------------------ *)
(** ** The worker's address *)

Lemma parse_digits_junk (junk : jstring) (acc : Z) :
  starts_with_digit junk = false -> parse_digits junk acc = acc.
Proof. destruct junk as [|c rest]; simpl; [reflexivity|]. now intros ->. Qed.

Ltac digit_step :=
  match goal with
  | |- parse_digits (lit (String ?a ?s) ++ ?j) ?acc = _ =>
      let v := eval vm_compute in (Z.of_N (N_of_ascii a - 48)) in
      change (parse_digits (lit (String a s) ++ j) acc)
        with (parse_digits (lit s ++ j) (10 * acc + v))
  end.

Lemma parse_digits_acc (d : Decimal.uint) (junk : jstring) :
  starts_with_digit junk = false ->
  forall acc,
    parse_digits (lit (NilEmpty.string_of_uint d) ++ junk) (Z.pos acc)
    = Z.pos (Pos.of_uint_acc d acc).
Proof.
  intros Hj. induction d; intros acc; cbn [NilEmpty.string_of_uint Pos.of_uint_acc];
    [apply parse_digits_junk, Hj|..];
    digit_step;
    match goal with
    | |- parse_digits _ ?z = Z.pos (Pos.of_uint_acc _ ?p) =>
        replace z with (Z.pos p) by lia
    end; apply IHd.
Qed.

Lemma parse_digits_uint (d : Decimal.uint) (junk : jstring) :
  starts_with_digit junk = false ->
  parse_digits (lit (NilEmpty.string_of_uint d) ++ junk) 0 = Z.of_N (Pos.of_uint d).
Proof.
  intros Hj. induction d; cbn [NilEmpty.string_of_uint Pos.of_uint];
    [apply parse_digits_junk, Hj|..]; digit_step;
    [exact IHd|..];
    match goal with
    | |- parse_digits _ ?z = Z.of_N (N.pos (Pos.of_uint_acc _ ?p)) =>
        replace z with (Z.pos p) by lia
    end; apply (parse_digits_acc d junk Hj).
Qed.

Lemma trim_start_skip (ws s : jstring) :
  whitespace_only ws = true -> trim_start (ws ++ s) = trim_start s.
Proof.
  unfold whitespace_only. induction ws as [|c ws IH]; simpl; [reflexivity|].
  intros H. apply andb_true_iff in H. destruct H as [Hc Hws].
  rewrite Hc. apply IH, Hws.
Qed.

Lemma digit_is_plain (c : N) :
  is_digit c = true ->
  is_js_whitespace c = false /\ N.eqb c 45 = false /\ N.eqb c 43 = false.
Proof.
  unfold is_digit, is_js_whitespace. intros H.
  apply andb_true_iff in H. destruct H as [H1 H2].
  apply N.leb_le in H1. apply N.leb_le in H2.
  repeat match goal with
         | |- context [N.eqb c ?k] =>
             let E := fresh "E" in
             destruct (N.eqb c k) eqn:E; [apply N.eqb_eq in E; lia|]
         end.
  assert (Hbig : N.leb 8192 c = false) by (apply N.leb_gt; lia).
  rewrite Hbig. repeat split.
Qed.

Lemma parseInt10_digit_first (c : N) (rest : jstring) :
  is_digit c = true -> parseInt10 (c :: rest) = Finite (parse_digits (c :: rest) 0).
Proof.
  intros H. destruct (digit_is_plain c H) as (Hw & Hm & Hp).
  unfold parseInt10. cbn [trim_start]. rewrite Hw, Hm, Hp, H. reflexivity.
Qed.

Lemma uint_first_digit (d : Decimal.uint) :
  d <> Decimal.Nil ->
  exists c rest, lit (NilEmpty.string_of_uint d) = c :: rest /\ is_digit c = true.
Proof.
  destruct d; [intros F; now elim F|..]; intros _;
    eexists; eexists; (split; [reflexivity|reflexivity]).
Qed.

(** The digits of a natural number: its decimal text and its value. *)
Lemma decimal_digits (n : Z) :
  0 <= n ->
  exists d, d <> Decimal.Nil
            /\ decimal n = lit (NilEmpty.string_of_uint d)
            /\ Z.of_N (Pos.of_uint d) = n.
Proof.
  intros H. destruct n as [|p|p]; [| |lia].
  - exists (Decimal.D0 Decimal.Nil). repeat split. discriminate.
  - exists (Pos.to_uint p). split; [apply DecimalPos.Unsigned.to_uint_nonnil|].
    split.
    + unfold decimal. cbn [Z.to_int NilZero.string_of_int NilZero.string_of_uint].
      destruct (Pos.to_uint p) eqn:E; try reflexivity.
      now elim (DecimalPos.Unsigned.to_uint_nonnil p).
    + now rewrite DecimalPos.Unsigned.of_to.
Qed.

(** X19. A port given in decimal digits reaches the base URL as it was
    written: for a natural number [n] (below 2^53, where JavaScript numbers
    are exact), a [CLAUDE_MEM_PORT] made of optional white space, the digits
    of [n] and anything that does not start with a digit is parsed to [n],
    and the URL ends with [':'] and the digits of [n]. *)
Theorem port_digits_round_trip
  (n : Z) (ws junk : jstring) (host : option jstring) :
  0 <= n < 2 ^ 53 ->
  whitespace_only ws = true ->
  starts_with_digit junk = false ->
  let env := {| Environment.CLAUDE_MEM_PORT := Some (ws ++ decimal n ++ junk);
                Environment.CLAUDE_MEM_HOST := host |} in
  Environment.WORKER_PORT env = Finite n
  /\ Environment.WORKER_BASE_URL env
     = lit "http://" ++ Environment.WORKER_HOST env ++ lit ":" ++ decimal n.
Proof.
  intros [Hn _] Hws Hj env.
  assert (Hp : Environment.WORKER_PORT env = Finite n).
  { unfold Environment.WORKER_PORT. subst env. cbn [Environment.CLAUDE_MEM_PORT].
    destruct (decimal_digits Hn) as (d & Hd & Ed & Ev).
    destruct (uint_first_digit Hd) as (c & rest & Ec & Hc).
    assert (Ht : string_truthy (ws ++ decimal n ++ junk) = true).
    { rewrite Ed, Ec. destruct ws; reflexivity. }
    rewrite Ht.
    assert (E1 : parseInt10 (ws ++ decimal n ++ junk) = parseInt10 (decimal n ++ junk)).
    { unfold parseInt10. now rewrite (@trim_start_skip ws (decimal n ++ junk) Hws). }
    assert (E2 : parseInt10 (lit (NilEmpty.string_of_uint d) ++ junk)
                 = Finite (parse_digits (lit (NilEmpty.string_of_uint d) ++ junk) 0)).
    { rewrite Ec. apply (@parseInt10_digit_first c (rest ++ junk) Hc). }
    rewrite E1, Ed, E2, (@parse_digits_uint d junk Hj), Ev. reflexivity. }
  split; [exact Hp|]. unfold Environment.WORKER_BASE_URL. rewrite Hp. reflexivity.
Qed.

(** X20. A port that does not start with a digit is not rejected: when the
    first character of a non-empty [CLAUDE_MEM_PORT] after leading white
    space is neither a digit nor a sign, or when nothing follows the white
    space, the port is [NaN] and the base URL ends with [':NaN']. *)
Theorem unreadable_port_gives_NaN (port : jstring) (host : option jstring) :
  string_truthy port = true ->
  match trim_start port with
  | [] => true
  | c :: _ => negb (is_digit c) && negb (N.eqb c 45) && negb (N.eqb c 43)
  end = true ->
  let env := {| Environment.CLAUDE_MEM_PORT := Some port;
                Environment.CLAUDE_MEM_HOST := host |} in
  Environment.WORKER_PORT env = NaN
  /\ Environment.WORKER_BASE_URL env
     = lit "http://" ++ Environment.WORKER_HOST env ++ lit ":NaN".
Proof.
  intros Ht H env.
  assert (Hp : Environment.WORKER_PORT env = NaN).
  { unfold Environment.WORKER_PORT. subst env. cbn [Environment.CLAUDE_MEM_PORT].
    rewrite Ht. unfold parseInt10.
    destruct (trim_start port) as [|c rest]; [reflexivity|].
    apply andb_true_iff in H. destruct H as [H H43].
    apply andb_true_iff in H. destruct H as [Hd H45].
    apply negb_true_iff in Hd, H45, H43. now rewrite H45, H43, Hd. }
  split; [exact Hp|]. unfold Environment.WORKER_BASE_URL. rewrite Hp. reflexivity.
Qed.

(** Without a port the default is used, and an empty port counts as
    none: with [CLAUDE_MEM_PORT] unset or empty the base URL is
    ['http://'], the host and [':37777'].  The host is ['127.0.0.1'] only
    when [CLAUDE_MEM_HOST] is unset; a host that is set is used as it is,
    the empty string included. *)
Theorem default_worker_address (host : option jstring) (port : option jstring) :
  (forall h, Environment.WORKER_HOST
               {| Environment.CLAUDE_MEM_PORT := port;
                  Environment.CLAUDE_MEM_HOST := Some h |} = h)
  /\ Environment.WORKER_HOST
       {| Environment.CLAUDE_MEM_PORT := port; Environment.CLAUDE_MEM_HOST := None |}
     = lit "127.0.0.1"
  /\ Environment.WORKER_BASE_URL
       {| Environment.CLAUDE_MEM_PORT := None; Environment.CLAUDE_MEM_HOST := host |}
     = lit "http://" ++ match host with Some h => h | None => lit "127.0.0.1" end
       ++ lit ":37777"
  /\ Environment.WORKER_BASE_URL
       {| Environment.CLAUDE_MEM_PORT := Some []; Environment.CLAUDE_MEM_HOST := host |}
     = Environment.WORKER_BASE_URL
         {| Environment.CLAUDE_MEM_PORT := None; Environment.CLAUDE_MEM_HOST := host |}.
Proof. repeat split. Qed.

(* ------------------------------------------------------------------ *)
(** ** The further properties on concrete runs *)

Lemma chat_message_initializes_iff_witness :
  sessionInitialized initial_state = false
  /\ sessionInitialized
       (state (run worker_up (chat_message demo_cfg hello JUndefined) initial_state []))
     = true.
Proof.
  split; [reflexivity|].
  apply (proj2 (@chat_message_initializes_iff demo_cfg worker_up hello JUndefined
                  initial_state [] eq_refl)).
  split; [reflexivity|]. eexists. eexists. repeat split; reflexivity.
Defined.

Lemma observation_forwarded_status_ignored_witness :
  sessionInitialized initialized_state = true
  /\ alive demo_cfg worker_failing [] = true
  /\ is_nullish bash_event = false
  /\ exists body,
       trace (run worker_failing
                (tool_execute_after demo_cfg bash_event (JStr (lit "ok")))
                initialized_state [])
       = probed demo_cfg []
         ++ [EvFetch (post_json demo_cfg "/api/sessions/observations" body)]
       /\ js_get body "tool_response" = Returned (JStr (lit "ok")).
Proof.
  split; [reflexivity|]. split; [reflexivity|]. split; [reflexivity|].
  destruct (@observation_forwarded_status_ignored demo_cfg worker_failing bash_event
              (JStr (lit "ok")) initialized_state [] eq_refl eq_refl eq_refl)
    as (body & more & Et & _ & Hr & _ & _ & _ & _ & Hsilent & _).
  exists body. split; [|exact Hr].
  rewrite Et. rewrite (Hsilent _ eq_refl). reflexivity.
Defined.

Lemma null_event_is_logged_not_sent_witness :
  is_nullish JNull = true
  /\ exists e,
       run worker_up (tool_execute_after demo_cfg JNull (JStr (lit "ok")))
         initialized_state []
       = mkResult (Returned tt) initialized_state
           (probed demo_cfg []
            ++ [EvLog (lit "claude-mem: observation capture failed") e]).
Proof.
  split; [reflexivity|].
  exact (proj1 (@null_event_is_logged_not_sent demo_cfg worker_up JNull
                  (JStr (lit "ok")) initialized_state [] eq_refl eq_refl eq_refl)).
Defined.

Lemma forwarded_message_is_defined_witness :
  lastAssistantMessage (JObj [(lit "messages", JArr conversation)])
  = Returned (JStr (lit "B"))
  /\ is_nullish (JStr (lit "B")) = false.
Proof.
  split; [reflexivity|].
  exact (proj1 (@forwarded_message_is_defined
                  (JObj [(lit "messages", JArr conversation)]) (JStr (lit "B"))
                  eq_refl)).
Defined.

Lemma no_assistant_forwards_empty_witness :
  is_nullish (JObj [(lit "sessionId", JStr (lit "s1"))]) = false
  /\ lastAssistantMessage (JObj [(lit "sessionId", JStr (lit "s1"))])
     = Returned (JStr [])
  /\ lastAssistantMessage
       (JObj [(lit "messages", JArr [msg "user" "q1"; msg "tool" "out"])])
     = Returned (JStr []).
Proof.
  split; [reflexivity|]. split.
  - apply (@no_assistant_forwards_empty (JObj [(lit "sessionId", JStr (lit "s1"))]) []
             eq_refl).
    left. reflexivity.
  - apply (@no_assistant_forwards_empty
             (JObj [(lit "messages", JArr [msg "user" "q1"; msg "tool" "out"])])
             [msg "user" "q1"; msg "tool" "out"] eq_refl).
    right. split; [reflexivity|]. split; [repeat constructor|reflexivity].
Defined.

Lemma query_names_are_unique_witness :
  exists req,
    tool_request demo_cfg MemTimeline (JArr [JStr (lit "a"); JNull; JNum 3])
    = Returned req
    /\ NoDup (map fst (req_query req)).
Proof.
  eexists. split; [reflexivity|].
  apply (@query_names_are_unique demo_cfg MemTimeline
           (JArr [JStr (lit "a"); JNull; JNum 3])).
  reflexivity.
Defined.

Lemma query_lists_defined_parameters_witness :
  exists req,
    tool_request demo_cfg MemSearch (JObj search_params) = Returned req
    /\ req_query req = [(lit "query", lit "auth"); (lit "limit", lit "5")].
Proof.
  destruct (@query_lists_defined_parameters demo_cfg MemSearch search_params)
    as (req & Hreq & _ & _ & Hq & _).
  - discriminate.
  - repeat constructor; simpl; intuition discriminate.
  - repeat constructor.
  - repeat constructor.
  - exists req. split; [exact Hreq|]. rewrite Hq. reflexivity.
Defined.

Lemma normalizeInput_reads_eight_keys_witness :
  OpencodeAdapter.normalizeInput (lit "/srv/app")
    (JObj [(lit "sessionId", JStr (lit "s1")); (lit "model", JStr (lit "m"))])
  = OpencodeAdapter.normalizeInput (lit "/srv/app")
      (JObj [(lit "sessionId", JStr (lit "s1"))]).
Proof.
  apply (@normalizeInput_reads_eight_keys (lit "/srv/app")
           (JObj [(lit "sessionId", JStr (lit "s1")); (lit "model", JStr (lit "m"))])
           (JObj [(lit "sessionId", JStr (lit "s1"))]) eq_refl eq_refl).
  repeat constructor.
Defined.

Lemma port_digits_round_trip_witness :
  0 <= 8080 < 2 ^ 53
  /\ Environment.WORKER_BASE_URL
       {| Environment.CLAUDE_MEM_PORT := Some (lit " 8080/tcp");
          Environment.CLAUDE_MEM_HOST := Some (lit "localhost") |}
     = lit "http://localhost:8080".
Proof.
  split; [lia|].
  refine (proj2 (@port_digits_round_trip 8080 (lit " ") (lit "/tcp")
                   (Some (lit "localhost")) _ eq_refl eq_refl)).
  lia.
Defined.

Lemma unreadable_port_gives_NaN_witness :
  string_truthy (lit "auto") = true
  /\ Environment.WORKER_BASE_URL
       {| Environment.CLAUDE_MEM_PORT := Some (lit "auto");
          Environment.CLAUDE_MEM_HOST := None |}
     = lit "http://127.0.0.1:NaN".
Proof.
  split; [reflexivity|].
  exact (proj2 (@unreadable_port_gives_NaN (lit "auto") None eq_refl eq_refl)).
Defined.
